(** * JawiAI backend: knowledge compiler and retrieval orchestrator

    A shallow embedding of [backend/ingest.py] (the offline knowledge
    compiler) and [backend/app.py] (the Flask handlers [chat] and
    [chat_creative]), followed by the properties of the retrieval and
    prompt-assembly decision logic.

    Conventions of the embedding:
    - a Python [str] is a [string]; one [ascii] is one code point in the range
      U+0000..U+00FF, and [lower], [strip] are Python's on that range;
    - a Python [float] (and a NumPy float32, which embeds exactly) is a
      binary64 [float] with the IEEE comparison;
    - a [dict] with string keys is a [gmap string _];
    - an exception is a value of [exn]; code that may raise returns a
      [result];
    - the handlers run in the monad [M], which records the calls made to the
      collaborators (embedding model, FAISS index, LLM endpoint) in order;
    - the progress messages that the scripts [print] are left out. *)

From Stdlib Require Import Floats ZArith Lia Ascii String.
From stdpp Require Import gmap strings list fin_maps pretty.

Set Warnings "-register-all,-inexact-float".

Local Open Scope Z_scope.

(** ** Python values and primitives *)

Module Py.

(** Exceptions that the modelled code can meet.  Each carries the text
    that [str(e)] returns; for [KeyError] that text is the repr of the key. *)
Inductive exn : Type :=
| KeyError (key_repr : string)
| IndexError (msg : string)
| TypeError (msg : string)
| AttributeError (msg : string)
| RequestException (msg : string)
| HTTPError (msg : string)
| JSONDecodeError (msg : string).

Definition str (e : exn) : string :=
  match e with
  | KeyError msg | IndexError msg | TypeError msg | AttributeError msg
  | RequestException msg | HTTPError msg | JSONDecodeError msg => msg
  end.

(** [repr(k)] for a string key that holds no quote, backslash or control
    character. *)
Definition repr_str (k : string) : string := "'" +:+ k +:+ "'".

Inductive result (A : Type) : Type :=
| Ok (a : A)
| Raise (e : exn).
Arguments Ok {A} a.
Arguments Raise {A} e.

#[global] Instance result_ret : MRet result := fun A a => Ok a.
#[global] Instance result_bind : MBind result := fun A B k r =>
  match r with
  | Ok a => k a
  | Raise e => Raise e
  end.

(** [str.isspace] on one code point below U+0100. *)
Definition isspace (c : ascii) : bool :=
  let n := N_of_ascii c in
  (((9 <=? n) && (n <=? 13)) || ((28 <=? n) && (n <=? 32))
   || (n =? 133) || (n =? 160))%N.

(** [str.lower] on one code point below U+0100: A-Z and the Latin-1
    capitals U+00C0..U+00DE (the multiplication sign U+00D7 apart). *)
Definition lower_char (c : ascii) : ascii :=
  let n := N_of_ascii c in
  if (((65 <=? n) && (n <=? 90))
      || ((192 <=? n) && (n <=? 222) && negb (n =? 215)))%N
  then ascii_of_N (n + 32) else c.

Fixpoint lower (s : string) : string :=
  match s with
  | EmptyString => EmptyString
  | String c s' => String (lower_char c) (lower s')
  end.

Fixpoint lstrip (s : string) : string :=
  match s with
  | EmptyString => EmptyString
  | String c s' => if isspace c then lstrip s' else s
  end.

Fixpoint rstrip (s : string) : string :=
  match s with
  | EmptyString => EmptyString
  | String c s' =>
      match rstrip s' with
      | EmptyString => if isspace c then EmptyString else String c EmptyString
      | r => String c r
      end
  end.

(** [s.strip()] *)
Definition strip (s : string) : string := rstrip (lstrip s).

(** [s.startswith(p)] *)
Fixpoint startswith (s p : string) : bool :=
  match p, s with
  | EmptyString, _ => true
  | String a p', String b s' => if Ascii.eqb a b then startswith s' p' else false
  | String _ _, EmptyString => false
  end.

(** [sub in s] *)
Fixpoint contains (s sub : string) : bool :=
  startswith s sub
  || match s with
     | EmptyString => false
     | String _ s' => contains s' sub
     end.

(** [s.split(sep)] for a one-character separator. *)
Fixpoint split (s : string) (sep : ascii) : list string :=
  match s with
  | EmptyString => [EmptyString]
  | String c s' =>
      if Ascii.eqb c sep then EmptyString :: split s' sep
      else match split s' sep with
           | [] => [String c EmptyString]
           | w :: ws => String c w :: ws
           end
  end.

(** [s.replace(old, new)] for a non-empty [old]: occurrences are found from
    the left and do not overlap.  [skip] counts the characters of the
    occurrence being replaced that are still to be dropped. *)
Fixpoint replace_from (skip : nat) (s old new : string) : string :=
  match s with
  | EmptyString => EmptyString
  | String c s' =>
      match skip with
      | S k => replace_from k s' old new
      | O =>
          if startswith s old
          then new +:+ replace_from (String.length old - 1) s' old new
          else String c (replace_from O s' old new)
      end
  end.

Definition replace (s old new : string) : string := replace_from O s old new.

(** [l[i]] on a sequence (a list, or the characters of a string): a
    negative index counts from the end, an index out of range raises
    [IndexError]; [kind] is the word the message starts with. *)
Definition seq_getitem {A} (kind : string) (l : list A) (i : Z) : result A :=
  let n := Z.of_nat (List.length l) in
  let j := if i <? 0 then i + n else i in
  if (j <? 0) || (n <=? j) then Raise (IndexError (kind +:+ " index out of range"))
  else match l !! Z.to_nat j with
       | Some x => Ok x
       | None => Raise (IndexError (kind +:+ " index out of range"))
       end.

Definition list_getitem {A} (l : list A) (i : Z) : result A :=
  seq_getitem "list" l i.

(** [d[k]] on a dict. *)
Definition dict_getitem {V} (d : gmap string V) (k : string) : result V :=
  match d !! k with
  | Some v => Ok v
  | None => Raise (KeyError (repr_str k))
  end.

(** [d.get(k, dflt)] *)
Definition dict_get {V} (d : gmap string V) (k : string) (dflt : V) : V :=
  default dflt (d !! k).

End Py.

Import Py.

(** ** ingest.py: the knowledge compiler *)

Module Ingest.

(** One element of [jawi_knowledge.json]: a JSON object whose fields hold
    strings. *)
Abbreviation item := (gmap string string).

(** The body of the loop over [knowledge_base] (ingest.py, lines 26-37):
    the text appended to [documents] for [item], if any. *)
Definition flatten (item : item) : result (option string) :=
  if decide (item !! "type" = Some "general_topic") then
    topic ← dict_getitem item "topic";
    content ← dict_getitem item "content";
    Ok (Some ("Topic: " +:+ topic +:+ ". Explanation: " +:+ content))
  else if decide (item !! "type" = Some "letter") then
    name ← dict_getitem item "name";
    let character := dict_get item "character" EmptyString in
    info ← dict_getitem item "info";
    let latin_example := dict_get item "latin_example" EmptyString in
    let jawi_example := dict_get item "jawi_example" EmptyString in
    Ok (Some ("Letter name: " +:+ name +:+ ". "
              +:+ "Jawi character form: " +:+ character +:+ ". "
              +:+ "Info: " +:+ info +:+ " "
              +:+ "Example word in Latin is '" +:+ latin_example +:+ "' "
              +:+ "and in Jawi is '" +:+ jawi_example +:+ "'."))
  else Ok None.

(** The loop itself: [documents] grows by [append]; an exception raised
    while an item is formatted ends the script. *)
Fixpoint ingest_loop (knowledge_base : list item) (documents : list string)
  : result (list string) :=
  match knowledge_base with
  | [] => Ok documents
  | item :: rest =>
      text ← flatten item;
      ingest_loop rest (match text with
                        | Some text => documents ++ [text]
                        | None => documents
                        end)
  end.

(** Steps 1-2 of the script: the document sequence that step 6 saves to
    [documents.json]. *)
Definition ingest (knowledge_base : list item) : result (list string) :=
  ingest_loop knowledge_base [].

End Ingest.

(** ** app.py: the retrieval orchestrator *)

Module App.

Definition nl : string := String "010" EmptyString.
Definition dq : string := String "034" EmptyString.

(** *** Configuration and wire formats *)

Definition MODEL_NAME : string := "vllm-qwen3".

Definition RELEVANCE_THRESHOLD : float := 1.0%float.

(** One turn of a conversation, as sent to the LLM endpoint. *)
Record message : Type := Message { role : string; content : string }.

(** The JSON body posted to [QWEN_API_URL]. *)
Record payload : Type := Payload {
  model : string;
  messages : list message;
  max_tokens : Z;
  temperature : float
}.

(** The body of a request to [/chat] or [/chat-creative]: [query] and
    [context] are [None] when the field is absent, [history] is the list
    given or the default [[]]. *)
Record request : Type := Request {
  query : option string;
  history : list message;
  context : option string
}.

(** What a handler returns: [jsonify(...)] with its status code. *)
Inductive body : Type :=
| ResponseJson (response : string)
| ErrorJson (error : string).

Record reply : Type := Reply { reply_body : body; status : Z }.

(** A decoded JSON document. *)
Inductive json : Type :=
| JNull
| JBool (b : bool)
| JInt (n : Z)
| JFloat (x : float)
| JStr (s : string)
| JArr (l : list json)
| JObj (o : gmap string json).

(** The [requests.Response] that [requests.post] returns: its status code,
    the text of the [HTTPError] that [raise_for_status] builds from it,
    and what [response.json()] returns or raises. *)
Record response : Type := Response {
  status_code : Z;
  http_error_text : string;
  json_body : result json
}.

(** [requests.post] either raises (connection error, timeout after 60 s,
    ...) or returns a response. *)
Inductive post_outcome : Type :=
| PostRaised (e : exn)
| PostReturned (r : response).

(** *** Process-wide state and collaborators *)

Record world : Type := World {
  (** [documents.json], loaded at startup *)
  documents : list string;
  (** [retriever_model.encode([text])], the row of the one text *)
  retriever_encode : string -> list float;
  (** [jawi_index.search(v, k=1)]: [distances[0][0]] and [indices[0][0]] *)
  index_search : list float -> float * Z;
  (** [requests.post(QWEN_API_URL, headers, json=payload, timeout=60)] *)
  requests_post : payload -> post_outcome
}.

(** Calls that leave the handler, in the order they are made.  The
    dictionary probe is recorded too, so that a request can be seen to stop
    before it. *)
Inductive event : Type :=
| Lookup (key : string)
| Encode (text : string)
| Search (v : list float)
| Post (p : payload).

(** A handler run: the calls made, and the value returned or the exception
    that escaped. *)
Record M (A : Type) : Type := Run { trace : list event; returned : result A }.
Arguments Run {A} trace returned.
Arguments trace {A} m.
Arguments returned {A} m.

#[global] Instance M_ret : MRet M := fun A a => Run [] (Ok a).
#[global] Instance M_bind : MBind M := fun A B k m =>
  match returned m with
  | Ok a => Run (trace m ++ trace (k a)) (returned (k a))
  | Raise e => Run (trace m) (Raise e)
  end.

(** A pure step that may raise. *)
Definition lift {A} (r : result A) : M A := Run [] r.

(** A call to a collaborator. *)
Definition call {A} (ev : event) (r : result A) : M A := Run [ev] r.

(** [try: m except Exception as e: handler(e)] *)
Definition try_except {A} (m : M A) (handler : exn -> M A) : M A :=
  match returned m with
  | Ok a => m
  | Raise e => Run (trace m ++ trace (handler e)) (returned (handler e))
  end.

(** *** Startup: the exact-match index (app.py, lines 45-53) *)

(** [doc.split('.')[0].replace(<prefix>, <empty>).strip().lower()] *)
Definition letter_name (doc : string) : result string :=
  head ← list_getitem (split doc ".") 0;
  Ok (lower (strip (replace head "Letter name: " EmptyString))).

(** The loop over [documents]; [list_getitem] raises nothing but the
    [IndexError] that the source catches to skip the document. *)
Fixpoint document_lookup_loop (documents : list string)
    (document_lookup : gmap string string) : gmap string string :=
  match documents with
  | [] => document_lookup
  | doc :: rest =>
      document_lookup_loop rest
        (if startswith doc "Letter name:" then
           match letter_name doc with
           | Ok name => <[name := doc]> document_lookup
           | Raise _ => document_lookup
           end
         else document_lookup)
  end.

Definition document_lookup (documents : list string) : gmap string string :=
  document_lookup_loop documents ∅.

(** *** Subscripts and methods on decoded JSON *)

Definition type_name (v : json) : string :=
  match v with
  | JNull => "NoneType"
  | JBool _ => "bool"
  | JInt _ => "int"
  | JFloat _ => "float"
  | JStr _ => "str"
  | JArr _ => "list"
  | JObj _ => "dict"
  end.

(** [v[k]] for a string [k] *)
Definition getitem_key (v : json) (k : string) : result json :=
  match v with
  | JObj o => dict_getitem o k
  | JArr _ => Raise (TypeError "list indices must be integers or slices, not str")
  | JStr _ => Raise (TypeError "string indices must be integers, not 'str'")
  | _ => Raise (TypeError ("'" +:+ type_name v +:+ "' object is not subscriptable"))
  end.

(** [v[i]] for an integer [i]; a decoded JSON object has string keys only,
    so an integer key is never found. *)
Definition getitem_index (v : json) (i : Z) : result json :=
  match v with
  | JArr l => list_getitem l i
  | JStr s =>
      c ← seq_getitem "string" (list_ascii_of_string s) i;
      Ok (JStr (String c EmptyString))
  | JObj _ => Raise (KeyError (pretty i))
  | _ => Raise (TypeError ("'" +:+ type_name v +:+ "' object is not subscriptable"))
  end.

(** [v.strip()] *)
Definition method_strip (v : json) : result string :=
  match v with
  | JStr s => Ok (strip s)
  | _ => Raise (AttributeError
                  ("'" +:+ type_name v +:+ "' object has no attribute 'strip'"))
  end.

(** [response.raise_for_status()]: raises for 4xx and 5xx. *)
Definition raise_for_status (r : response) : result unit :=
  if (400 <=? status_code r) && (status_code r <? 600)
  then Raise (HTTPError (http_error_text r))
  else Ok tt.

(** *** Retrieval (app.py, lines 90-111) *)

(** Which branch assigned [retrieved_context], with the document it
    assigned. *)
Inductive RetrievalOutcome : Type :=
| ExactMatch (doc : string)
| SemanticMatch (doc : string) (distance : float)
| NoMatch.

(** The value of the variable [retrieved_context] after the branch. *)
Definition retrieved_context (o : RetrievalOutcome) : option string :=
  match o with
  | ExactMatch doc | SemanticMatch doc _ => Some doc
  | NoMatch => None
  end.

Definition retrieve (w : world) (search_query : string) : M RetrievalOutcome :=
  let normalized_query := strip (lower search_query) in
  hit ← call (Lookup normalized_query)
           (Ok (document_lookup (documents w) !! normalized_query));
  match hit with
  | Some doc => mret (ExactMatch doc)
  | None =>
      query_embedding ← call (Encode search_query)
                           (Ok (retriever_encode w search_query));
      found ← call (Search query_embedding)
                 (Ok (index_search w query_embedding));
      let distance := fst found in
      let index := snd found in
      if (distance <=? RELEVANCE_THRESHOLD)%float then
        doc ← lift (list_getitem (documents w) index);
        mret (SemanticMatch doc distance)
      else mret NoMatch
  end.

(** *** Prompt assembly (app.py, lines 115-159) *)

Definition GROUNDED_SYSTEM_PROMPT : string :=
  "You are JawiAI, an intelligent and precise AI assistant for the Jawi Script. Follow these rules strictly:"
  +:+ nl +:+ "1.  **Grounding Rule:** Your answers MUST be based ONLY on the provided 'Context' and the 'Conversation History'. Do not invent information."
  +:+ nl +:+ "2.  **Formatting Rule:** When giving an example, you MUST use the format: Latin (Jawi)."
  +:+ nl +:+ "3.  **Follow-up Rule:** If the user asks for 'another' or 'more', provide another example or detail related to the last topic."
  +:+ nl +:+ "4.  **Repetition Handling Rule:** If you find yourself out of new examples from the 'Context', you MUST offer to switch to a creative mode. For example, say: " +:+ dq +:+ "I have no more examples for that in my knowledge base. Would you like me to try to **create a new example** for you?" +:+ dq
  +:+ nl +:+ "5.  **Fallback Rule:** If you cannot answer the question based on the provided context or history, state that you do not have that information.".

Definition FALLBACK_SYSTEM_PROMPT : string :=
  "You are JawiAI, an assistant that ONLY discusses the Jawi script. The user's message seems unclear or off-topic. Politely inform the user that you can only answer questions about the Jawi script and ask them to clarify their question about Jawi.".

(** The f-string of line 133. *)
Definition user_content_with_context (retrieved_context user_query : string)
  : string :=
  "Context:" +:+ nl +:+ "---" +:+ nl +:+ retrieved_context +:+ nl +:+ "---"
  +:+ nl +:+ nl +:+ "Question: " +:+ user_query.

(** Factual mode (lines 119-141). *)
Definition grounded_payload (retrieved_context : string)
    (chat_history : list message) (user_query : string) : payload :=
  let messages := [Message "system" GROUNDED_SYSTEM_PROMPT] in
  let messages := messages ++ chat_history in
  let messages :=
    messages ++ [Message "user"
                   (user_content_with_context retrieved_context user_query)] in
  Payload MODEL_NAME messages 300 0.5%float.

(** Guarded generative mode (lines 147-159). *)
Definition fallback_payload (chat_history : list message) (user_query : string)
  : payload :=
  Payload MODEL_NAME
    ([Message "system" FALLBACK_SYSTEM_PROMPT]
       ++ chat_history ++ [Message "user" user_query])
    1024 0.7%float.

(** [if retrieved_context:] -- [None] and the empty string are false. *)
Definition prepare_payload (retrieved_context : option string)
    (chat_history : list message) (user_query : string) : payload :=
  match retrieved_context with
  | Some (String _ _ as ctx) => grounded_payload ctx chat_history user_query
  | Some EmptyString | None => fallback_payload chat_history user_query
  end.

(** *** The generation round trip *)

(** The body of the [try] (lines 163-173 and 204-209), from the response
    on: status check, decoding, extraction of the first choice. *)
Definition read_response (r : response) : result reply :=
  _ ← raise_for_status r;
  response_data ← json_body r;
  choices ← getitem_key response_data "choices";
  choice ← getitem_index choices 0;
  msg ← getitem_key choice "message";
  ai_response ← getitem_key msg "content";
  stripped ← method_strip ai_response;
  Ok (Reply (ResponseJson stripped) 200).

Definition do_post (w : world) (p : payload) : M response :=
  call (Post p) (match requests_post w p with
                 | PostRaised e => Raise e
                 | PostReturned r => Ok r
                 end).

(** Step 5 of [chat] (lines 162-176). *)
Definition generate (w : world) (p : payload) : M reply :=
  try_except
    (r ← do_post w p; lift (read_response r))
    (fun e => mret (Reply (ErrorJson (str e)) 500)).

(** *** The endpoints *)

(** Line 86: [initial_context if initial_context else user_query]. *)
Definition search_query (initial_context : option string) (user_query : string)
  : string :=
  match initial_context with
  | Some (String _ _ as hint) => hint
  | Some EmptyString | None => user_query
  end.

(** [POST /chat] *)
Definition chat (w : world) (data : request) : M reply :=
  let chat_history := history data in
  let initial_context := context data in
  match query data with
  | None | Some EmptyString => mret (Reply (ErrorJson "Query not found") 400)
  | Some user_query =>
      let search_query := search_query initial_context user_query in
      outcome ← retrieve w search_query;
      generate w (prepare_payload (retrieved_context outcome)
                    chat_history user_query)
  end.

(** The f-string of lines 190-194. *)
Definition creative_prompt (user_query : string) : string :=
  nl
  +:+ "    You are a creative Jawi language teacher. Fulfill the user's request creatively. Include both Latin and Jawi script whenever possible."
  +:+ nl +:+ "    Request: " +:+ dq +:+ user_query +:+ dq
  +:+ nl +:+ "    Your Creative Answer:"
  +:+ nl +:+ "    ".

Definition creative_payload (user_query : string) : payload :=
  Payload MODEL_NAME [Message "user" (creative_prompt user_query)]
    150 0.8%float.

(** [POST /chat-creative] *)
Definition chat_creative (w : world) (data : request) : M reply :=
  match query data with
  | None | Some EmptyString => mret (Reply (ErrorJson "Query not found") 400)
  | Some user_query =>
      try_except
        (r ← do_post w (creative_payload user_query); lift (read_response r))
        (fun e => mret (Reply (ErrorJson (str e)) 500))
  end.

End App.

Import Ingest App.

(** ** Vocabulary of the properties *)

Module Props.

(** A string made of whitespace only (possibly empty): what [strip] removes
    at either end. *)
Fixpoint all_space (s : string) : bool :=
  match s with
  | EmptyString => true
  | String c s' => isspace c && all_space s'
  end.

(** The text of [s] before the first [sep], all of [s] when it holds
    none. *)
Fixpoint before (s : string) (sep : ascii) : string :=
  match s with
  | EmptyString => EmptyString
  | String c s' =>
      if Ascii.eqb c sep then EmptyString else String c (before s' sep)
  end.

(** [s] without its first [n] characters. *)
Fixpoint drop_chars (n : nat) (s : string) : string :=
  match n, s with
  | S k, String _ s' => drop_chars k s'
  | _, _ => s
  end.

(** The name segment of a letter document, in the words of the
    specification: the text between the prefix and the first full stop. *)
Definition name_segment (doc : string) : option string :=
  if startswith doc "Letter name: "
  then Some (before (drop_chars (String.length "Letter name: ") doc) ".")
  else None.

(** The fields that a template reads with a subscript, per variant. *)
Definition required_fields (item : item) : list string :=
  if decide (item !! "type" = Some "general_topic") then ["topic"; "content"]
  else if decide (item !! "type" = Some "letter") then ["name"; "info"]
  else [].

(** Some required field of the record's variant is absent. *)
Definition lacks_required (item : item) : Prop :=
  ∃ field, field ∈ required_fields item ∧ item !! field = None.

(** An optional field as the template shows it. *)
Definition shown (field : option string) : string :=
  match field with
  | Some text => text
  | None => EmptyString
  end.

(** The shape of a completion that the handlers read: an object whose
    [choices] is a list, the first choice an object whose [message] is an
    object whose [content] is the string [text]. *)
Inductive expected_shape : json -> string -> Prop :=
| shape_intro (top choice msg : gmap string json) (others : list json)
    (text : string) :
    top !! "choices" = Some (JArr (JObj choice :: others)) ->
    choice !! "message" = Some (JObj msg) ->
    msg !! "content" = Some (JStr text) ->
    expected_shape (JObj top) text.

(** The ways in which the generation round trip fails. *)
Inductive delegate_failure : post_outcome -> Prop :=
| transport_failure (e : exn) :
    delegate_failure (PostRaised e)
| error_status (r : response) :
    400 <= status_code r < 600 ->
    delegate_failure (PostReturned r)
| undecodable_body (r : response) (e : exn) :
    json_body r = Raise e ->
    delegate_failure (PostReturned r)
| unexpected_shape (r : response) (v : json) :
    json_body r = Ok v ->
    (∀ text, ¬ expected_shape v text) ->
    delegate_failure (PostReturned r).

(** The extraction of lines 170 and 173 on the decoded body:
    [response_data['choices'][0]['message']['content'].strip()]. *)
Definition extract_content (response_data : json) : result string :=
  choices ← getitem_key response_data "choices";
  choice ← getitem_index choices 0;
  msg ← getitem_key choice "message";
  ai_response ← getitem_key msg "content";
  method_strip ai_response.

(** The exception that a failed round trip raises inside the [try], by the
    step that raises it: the POST itself, [raise_for_status],
    [response.json()], or the extraction of the content. *)
Inductive failure_cause : post_outcome -> exn -> Prop :=
| cause_transport (e : exn) :
    failure_cause (PostRaised e) e
| cause_status (r : response) :
    400 <= status_code r < 600 ->
    failure_cause (PostReturned r) (HTTPError (http_error_text r))
| cause_body (r : response) (e : exn) :
    ¬ (400 <= status_code r < 600) ->
    json_body r = Raise e ->
    failure_cause (PostReturned r) e
| cause_shape (r : response) (v : json) (e : exn) :
    ¬ (400 <= status_code r < 600) ->
    json_body r = Ok v ->
    extract_content v = Raise e ->
    failure_cause (PostReturned r) e.

(** The calls of the semantic-search branch. *)
Definition is_semantic (ev : event) : bool :=
  match ev with
  | Encode _ | Search _ => true
  | Lookup _ | Post _ => false
  end.

(** The calls of the retrieval step, as opposed to generation. *)
Definition is_retrieval (ev : event) : bool :=
  match ev with
  | Lookup _ | Encode _ | Search _ => true
  | Post _ => false
  end.

(** The run of the retrieval step when the dictionary probe misses. *)
Definition semantic_run (w : world) (search_query : string)
  : M RetrievalOutcome :=
  let v := retriever_encode w search_query in
  Run [Lookup (strip (lower search_query)); Encode search_query; Search v]
    (if (fst (index_search w v) <=? RELEVANCE_THRESHOLD)%float
     then match list_getitem (documents w) (snd (index_search w v)) with
          | Ok doc => Ok (SemanticMatch doc (fst (index_search w v)))
          | Raise e => Raise e
          end
     else Ok NoMatch).

(** What [generate] returns for each outcome of the POST. *)
Definition generated (outcome : post_outcome) : reply :=
  match outcome with
  | PostRaised e => Reply (ErrorJson (str e)) 500
  | PostReturned r =>
      match read_response r with
      | Ok rep => rep
      | Raise e => Reply (ErrorJson (str e)) 500
      end
  end.

End Props.

(** ** Concrete knowledge bases and collaborators *)

Module Fixtures.

Definition topic_item : item :=
  {[ "type" := "general_topic"; "topic" := "Jawi";
     "content" := "An Arabic-derived script for Malay." ]}.

Definition alif_item : item :=
  {[ "type" := "letter"; "name" := "Alif"; "info" := "First letter." ]}.

Definition ca_item : item :=
  {[ "type" := "letter"; "name" := "Ca Final"; "character" := "c";
     "info" := "Final form of ca."; "latin_example" := "baca";
     "jawi_example" := "bc" ]}.

(** A letter record without its [name]. *)
Definition nameless_item : item :=
  {[ "type" := "letter"; "info" := "First letter." ]}.

(** Two letter records whose names differ in case only. *)
Definition alif_again_item : item :=
  {[ "type" := "letter"; "name" := "ALIF"; "info" := "Same letter again." ]}.

(** A letter record whose name holds a full stop. *)
Definition dotted_item : item :=
  {[ "type" := "letter"; "name" := "Nga. Final"; "info" := "Final form." ]}.

Definition dotted_doc : string :=
  "Letter name: Nga. Final. Jawi character form: . Info: Final form. Example word in Latin is '' and in Jawi is ''.".

(** A letter record whose name repeats the prefix of the template. *)
Definition prefixed_item : item :=
  {[ "type" := "letter"; "name" := "Letter name: Ba"; "info" := "Second." ]}.

Definition prefixed_doc : string :=
  "Letter name: Letter name: Ba. Jawi character form: . Info: Second. Example word in Latin is '' and in Jawi is ''.".

Definition alif_doc : string :=
  "Letter name: Alif. Jawi character form: . Info: First letter. Example word in Latin is '' and in Jawi is ''.".

Definition alif_again_doc : string :=
  "Letter name: ALIF. Jawi character form: . Info: Same letter again. Example word in Latin is '' and in Jawi is ''.".

Definition ca_doc : string :=
  "Letter name: Ca Final. Jawi character form: c. Info: Final form of ca. Example word in Latin is 'baca' and in Jawi is 'bc'.".

Definition topic_doc : string :=
  "Topic: Jawi. Explanation: An Arabic-derived script for Malay.".

(** A completion of the expected shape. *)
Definition completion (text : string) : json :=
  JObj {[ "choices" :=
            JArr [JObj {[ "message" := JObj {[ "content" := JStr text ]} ]}] ]}.

Definition ok_response (text : string) : response :=
  Response 200 "OK" (Ok (completion text)).

(** A world over the documents [docs]: every text embeds to the same
    vector, whose nearest neighbour is document 0 at distance [distance];
    the endpoint gives [outcome] for every payload. *)
Definition world_of (docs : list string) (distance : float)
    (outcome : post_outcome) : world :=
  World docs (fun _ => [0%float]) (fun _ => (distance, 0)) (fun _ => outcome).

Definition demo_documents : list string := [topic_doc; alif_doc; ca_doc].

(** Nearest neighbour beyond the threshold. *)
Definition far_world : world :=
  world_of demo_documents 1.5%float (PostReturned (ok_response " Hello. ")).

(** Nearest neighbour within the threshold. *)
Definition near_world : world :=
  world_of demo_documents 0.25%float (PostReturned (ok_response " Hello. ")).

(** The endpoint times out. *)
Definition timeout_world : world :=
  world_of demo_documents 1.5%float
    (PostRaised (RequestException "Read timed out. (read timeout=60)")).

(** The endpoint answers with status 302 and a completion in the body. *)
Definition redirect_world : world :=
  world_of demo_documents 1.5%float
    (PostReturned (Response 302 "Found" (Ok (completion " Hello. ")))).

End Fixtures.

Import Props Fixtures.

(** ** Vocabulary of the further properties *)

Module Behaviour.

(** The record is of one of the two types that the compiler formats. *)
Definition recognized (item : item) : bool :=
  bool_decide (item !! "type" = Some "general_topic")
  || bool_decide (item !! "type" = Some "letter").

(** The document that the startup loop files in the index. *)
Definition is_letter_doc (doc : string) : bool :=
  startswith doc "Letter name:".

(** The call of the generation endpoint. *)
Definition is_post (ev : event) : bool :=
  match ev with
  | Post _ => true
  | Lookup _ | Encode _ | Search _ => false
  end.

(** The position that a Python subscript [i] denotes in a sequence of
    length [n], when it denotes one. *)
Definition position (n : nat) (i : Z) : option nat :=
  if (0 <=? i) && (i <? Z.of_nat n) then Some (Z.to_nat i)
  else if (- Z.of_nat n <=? i) && (i <? 0) then Some (Z.to_nat (i + Z.of_nat n))
  else None.

End Behaviour.

Module MoreFixtures.

(** The index holds no vector: FAISS answers id -1. *)
Definition last_world : world :=
  World demo_documents (fun _ => [0%float]) (fun _ => (0.25%float, -1))
    (fun _ => PostReturned (ok_response " Hello. ")).

(** The nearest neighbour is within the threshold, but no document is
    loaded. *)
Definition unloaded_world : world :=
  world_of [] 0.25%float (PostReturned (ok_response " Hello. ")).

(** The nearest neighbour is an empty document. *)
Definition blank_doc_world : world :=
  world_of [EmptyString; alif_doc] 0.25%float
    (PostReturned (ok_response " Hello. ")).

(** The endpoint answers with an object that has no [choices]. *)
Definition no_choices_world : world :=
  world_of demo_documents 1.5%float
    (PostReturned (Response 200 "OK" (Ok (JObj {[ "error" := JStr "busy" ]})))).

End MoreFixtures.

Import Behaviour MoreFixtures.

(** ** Facts about the string primitives *)

Lemma append_nil (s : string) : EmptyString +:+ s = s.
Proof. reflexivity. Qed.

Lemma append_cons (c : ascii) (a s : string) :
  String c a +:+ s = String c (a +:+ s).
Proof. reflexivity. Qed.

Ltac norm_append := rewrite ?append_nil, ?append_cons.

Lemma isspace_lower_char (c : ascii) : isspace (lower_char c) = isspace c.
Proof. destruct c as [[] [] [] [] [] [] [] []]; reflexivity. Qed.

Lemma lower_app (a b : string) : lower (a +:+ b) = lower a +:+ lower b.
Proof.
  induction a as [|c a IH]; norm_append; simpl; [reflexivity | now rewrite IH].
Qed.

Lemma lower_empty_inv (s : string) : lower s = EmptyString -> s = EmptyString.
Proof. destruct s; [reflexivity | discriminate]. Qed.

Lemma lower_lstrip (s : string) : lower (lstrip s) = lstrip (lower s).
Proof.
  induction s as [|c s IH]; simpl; [reflexivity|].
  rewrite isspace_lower_char. destruct (isspace c); [exact IH | reflexivity].
Qed.

Lemma lower_rstrip (s : string) : lower (rstrip s) = rstrip (lower s).
Proof.
  induction s as [|c s IH]; simpl; [reflexivity|].
  rewrite <- IH, isspace_lower_char.
  destruct (rstrip s) as [|d r]; simpl; [|reflexivity].
  destruct (isspace c); reflexivity.
Qed.

(** Lower-casing and stripping commute: the key built at startup
    ([strip] then [lower]) and the key built per query ([lower] then
    [strip]) are normalised alike. *)
Lemma lower_strip (s : string) : lower (strip s) = strip (lower s).
Proof. unfold strip. now rewrite lower_rstrip, lower_lstrip. Qed.

Lemma lstrip_all_space (s : string) : all_space s = true -> lstrip s = EmptyString.
Proof.
  induction s as [|c s IH]; simpl; [reflexivity|].
  intros [Hc Hs]%andb_prop. rewrite Hc. auto.
Qed.

Lemma lstrip_pad_left (l s : string) :
  all_space l = true -> lstrip (l +:+ s) = lstrip s.
Proof.
  induction l as [|c l IH]; norm_append; simpl; [reflexivity|].
  intros [Hc Hl]%andb_prop. rewrite Hc. auto.
Qed.

Lemma rstrip_all_space (s : string) : all_space s = true -> rstrip s = EmptyString.
Proof.
  induction s as [|c s IH]; simpl; [reflexivity|].
  intros [Hc Hs]%andb_prop. rewrite (IH Hs), Hc. reflexivity.
Qed.

Lemma rstrip_pad_right (s r : string) :
  all_space r = true -> rstrip (s +:+ r) = rstrip s.
Proof.
  intros Hr. induction s as [|c s IH]; norm_append; simpl.
  - now apply rstrip_all_space.
  - now rewrite IH.
Qed.

Lemma strip_pad_right (s r : string) :
  all_space r = true -> strip (s +:+ r) = strip s.
Proof.
  intros Hr. unfold strip. induction s as [|c s IH]; norm_append; simpl.
  - now rewrite (lstrip_all_space r Hr).
  - destruct (isspace c); [exact IH|].
    rewrite <- append_cons. now apply rstrip_pad_right.
Qed.

(** Whitespace padding on either side does not change [strip]. *)
Lemma strip_pad (l s r : string) :
  all_space l = true -> all_space r = true -> strip (l +:+ s +:+ r) = strip s.
Proof.
  intros Hl Hr. unfold strip at 1. rewrite lstrip_pad_left by exact Hl.
  now apply strip_pad_right.
Qed.

Lemma startswith_nil (s : string) : startswith s EmptyString = true.
Proof. now destruct s. Qed.

Lemma startswith_app (p s : string) : startswith (p +:+ s) p = true.
Proof.
  induction p as [|c p IH]; norm_append; simpl; [now destruct s|].
  now rewrite Ascii.eqb_refl.
Qed.

(** The first field of [split] is the text before the first separator. *)
Lemma split_head (s : string) (sep : ascii) :
  ∃ fields, split s sep = before s sep :: fields.
Proof.
  induction s as [|c s [fields IH]]; cbn [split before]; [eauto|].
  destruct (Ascii.eqb c sep); [eauto|]. rewrite IH. eauto.
Qed.

Lemma before_stop (a rest : string) (sep : ascii) :
  before (a +:+ String sep rest) sep = before a sep.
Proof.
  induction a as [|c a IH]; norm_append; cbn [before].
  - now rewrite Ascii.eqb_refl.
  - destruct (Ascii.eqb c sep); [reflexivity | now rewrite IH].
Qed.

Lemma before_absent (s : string) (sep : ascii) :
  contains s (String sep EmptyString) = false -> before s sep = s.
Proof.
  induction s as [|c s IH]; cbn [before contains startswith]; [reflexivity|].
  rewrite (Ascii.eqb_sym c sep).
  destruct (Ascii.eqb sep c); [now rewrite startswith_nil|].
  cbn [orb]. intros H. now rewrite IH.
Qed.

Lemma replace_from_skip (skip : nat) (a s old new : string) :
  String.length a = skip ->
  replace_from skip (a +:+ s) old new = replace_from O s old new.
Proof.
  revert skip.
  induction a as [|c a IH]; intros skip <-; norm_append; simpl; [reflexivity|].
  now apply IH.
Qed.

Lemma replace_absent (s old new : string) :
  contains s old = false -> replace_from O s old new = s.
Proof.
  induction s as [|c s IH]; simpl; [reflexivity|].
  intros [Hh Ht]%orb_false_elim.
  change (match old with
          | EmptyString => true
          | String a p' => if Ascii.eqb a c then startswith s p' else false
          end) with (startswith (String c s) old) in *.
  rewrite Hh. now rewrite IH.
Qed.

(** Removing the prefix of a letter document: the name is left as it is
    when the prefix does not occur in it again. *)
Lemma replace_prefix (old s : string) :
  old ≠ EmptyString -> contains s old = false ->
  replace (old +:+ s) old EmptyString = s.
Proof.
  intros Hold Hs. unfold replace.
  destruct old as [|c old]; [congruence|].
  rewrite append_cons. cbn [replace_from]. rewrite <- append_cons.
  rewrite (startswith_app (String c old) s).
  cbn [String.length]. rewrite Nat.sub_succ, Nat.sub_0_r.
  rewrite replace_from_skip by reflexivity.
  now rewrite replace_absent.
Qed.

(** ** The knowledge compiler *)

Section Compiler.

Implicit Types (item : item) (knowledge_base : list item).

Lemma dict_getitem_some item (k v : string) :
  item !! k = Some v -> dict_getitem item k = Ok v.
Proof. unfold dict_getitem. now intros ->. Qed.

Lemma dict_getitem_none item (k : string) :
  item !! k = None -> dict_getitem item k = Raise (KeyError (repr_str k)).
Proof. unfold dict_getitem. now intros ->. Qed.

(** The letter template, with the optional fields as the record has
    them. *)
Lemma flatten_letter item (name info : string) :
  item !! "type" = Some "letter" ->
  item !! "name" = Some name ->
  item !! "info" = Some info ->
  flatten item =
    Ok (Some ("Letter name: " +:+ name +:+ ". "
              +:+ "Jawi character form: " +:+ shown (item !! "character") +:+ ". "
              +:+ "Info: " +:+ info +:+ " "
              +:+ "Example word in Latin is '"
              +:+ shown (item !! "latin_example") +:+ "' "
              +:+ "and in Jawi is '" +:+ shown (item !! "jawi_example") +:+ "'.")).
Proof.
  intros Ht Hn Hi. unfold flatten.
  rewrite decide_False by (rewrite Ht; discriminate).
  rewrite decide_True by exact Ht.
  rewrite (dict_getitem_some _ _ _ Hn), (dict_getitem_some _ _ _ Hi).
  unfold dict_get.
  destruct (item !! "character"), (item !! "latin_example"),
    (item !! "jawi_example"); reflexivity.
Qed.

(** C7: the document of a record is the fixed template of its variant, an
    absent optional field showing as the empty string in its place, and a
    record of any other type (or of none) yields no document. *)
Theorem flatten_is_the_variant_template item :
  (∀ topic content,
     item !! "type" = Some "general_topic" ->
     item !! "topic" = Some topic ->
     item !! "content" = Some content ->
     flatten item = Ok (Some ("Topic: " +:+ topic +:+ ". Explanation: " +:+ content)))
  ∧ (∀ name info,
       item !! "type" = Some "letter" ->
       item !! "name" = Some name ->
       item !! "info" = Some info ->
       flatten item =
         Ok (Some ("Letter name: " +:+ name
                   +:+ ". Jawi character form: " +:+ shown (item !! "character")
                   +:+ ". Info: " +:+ info
                   +:+ " Example word in Latin is '"
                   +:+ shown (item !! "latin_example")
                   +:+ "' and in Jawi is '" +:+ shown (item !! "jawi_example")
                   +:+ "'.")))
  ∧ (item !! "type" ≠ Some "general_topic" ->
     item !! "type" ≠ Some "letter" ->
     flatten item = Ok None
     ∧ ∀ knowledge_base documents,
         ingest_loop (item :: knowledge_base) documents
         = ingest_loop knowledge_base documents).
Proof.
  split; [|split].
  - intros topic content Ht Hp Hc. unfold flatten.
    rewrite decide_True by exact Ht.
    now rewrite (dict_getitem_some _ _ _ Hp), (dict_getitem_some _ _ _ Hc).
  - intros name info Ht Hn Hi. rewrite (flatten_letter item name info Ht Hn Hi).
    reflexivity.
  - intros Hg Hl.
    assert (flatten item = Ok None) as Hf.
    { unfold flatten. now rewrite !decide_False by assumption. }
    split; [exact Hf|]. intros kb docs. cbn [ingest_loop]. now rewrite Hf.
Qed.

Lemma flatten_is_the_variant_template_witness :
  flatten topic_item = Ok (Some topic_doc)
  ∧ flatten alif_item = Ok (Some alif_doc)
  ∧ flatten ca_item = Ok (Some ca_doc)
  ∧ flatten {[ "type" := "word"; "name" := "Alif" ]} = Ok None.
Proof.
  split; [|split; [|split]].
  - apply (proj1 (flatten_is_the_variant_template topic_item) "Jawi"
             "An Arabic-derived script for Malay."); reflexivity.
  - apply (proj1 (proj2 (flatten_is_the_variant_template alif_item)) "Alif"
             "First letter."); reflexivity.
  - apply (proj1 (proj2 (flatten_is_the_variant_template ca_item)) "Ca Final"
             "Final form of ca."); reflexivity.
  - apply (proj2 (proj2 (flatten_is_the_variant_template
                           {[ "type" := "word"; "name" := "Alif" ]})));
      vm_compute; discriminate.
Defined.

(** Formatting an item raises nothing but the [KeyError] of a required
    field that the item lacks. *)
Lemma flatten_raise item (e : exn) :
  flatten item = Raise e ->
  ∃ field, field ∈ required_fields item ∧ item !! field = None
           ∧ e = KeyError (repr_str field).
Proof.
  unfold flatten, required_fields, dict_getitem.
  destruct (decide (item !! "type" = Some "general_topic")).
  - destruct (item !! "topic") eqn:Ht; simpl.
    + destruct (item !! "content") eqn:Hc; simpl; [discriminate|].
      intros [= <-]. exists "content". repeat split; [set_solver | exact Hc].
    + intros [= <-]. exists "topic". repeat split; [set_solver | exact Ht].
  - destruct (decide (item !! "type" = Some "letter")); [|discriminate].
    destruct (item !! "name") eqn:Hn; simpl.
    + destruct (item !! "info") eqn:Hi; simpl; [discriminate|].
      intros [= <-]. exists "info". repeat split; [set_solver | exact Hi].
    + intros [= <-]. exists "name". repeat split; [set_solver | exact Hn].
Qed.

Lemma flatten_lacks_required item :
  lacks_required item -> ∃ e, flatten item = Raise e.
Proof.
  intros (field & Hin & Hnone). revert Hin.
  unfold flatten, required_fields, dict_getitem.
  destruct (decide (item !! "type" = Some "general_topic")).
  - intros Hin. destruct (item !! "topic") eqn:Ht; simpl; [|eauto].
    destruct (item !! "content") eqn:Hc; simpl; [|eauto].
    apply list_elem_of_In in Hin. simpl in Hin.
    destruct Hin as [<-|[<-|[]]]; congruence.
  - destruct (decide (item !! "type" = Some "letter"));
      [|now intros Hin%elem_of_nil].
    intros Hin. destruct (item !! "name") eqn:Ht; simpl; [|eauto].
    destruct (item !! "info") eqn:Hc; simpl; [|eauto].
    apply list_elem_of_In in Hin. simpl in Hin.
    destruct Hin as [<-|[<-|[]]]; congruence.
Qed.

(** Once an item fails, the loop fails with the same exception. *)
Lemma ingest_loop_raise knowledge_base :
  Exists lacks_required knowledge_base ->
  ∀ documents, ∃ e, ingest_loop knowledge_base documents = Raise e
    ∧ ∃ item field, item ∈ knowledge_base ∧ field ∈ required_fields item
        ∧ item !! field = None ∧ e = KeyError (repr_str field).
Proof.
  induction knowledge_base as [|item kb IH]; intros Hex docs.
  - inversion Hex.
  - cbn [ingest_loop]. destruct (flatten item) as [text|e] eqn:Hf.
    + simpl. apply Exists_cons in Hex as [Hhere|Hlater].
      * apply flatten_lacks_required in Hhere as [e He]. congruence.
      * destruct (IH Hlater (match text with
                             | Some text => docs ++ [text]
                             | None => docs
                             end)) as (e & He & it & field & Hin & Hf' & Hn & ->).
        exists (KeyError (repr_str field)). split; [exact He|].
        exists it, field. split; [now apply list_elem_of_further | auto].
    + simpl. exists e. split; [reflexivity|].
      apply flatten_raise in Hf as (field & Hin & Hn & ->).
      exists item, field. split; [apply list_elem_of_here | auto].
Qed.

(** C4, as stated, fails: a letter record without its [name] is not
    rendered with an empty name; formatting it raises [KeyError], and a
    batch that holds it yields no document at all. *)
Lemma missing_name_aborts_the_batch :
  nameless_item !! "type" = Some "letter"
  ∧ nameless_item !! "name" = None
  ∧ flatten nameless_item = Raise (KeyError "'name'")
  ∧ ingest [topic_item; nameless_item; alif_item] = Raise (KeyError "'name'").
Proof. repeat split; vm_compute; reflexivity. Qed.

(** C4 (amended): a missing optional field of a letter ([character],
    [latin_example], [jawi_example]) shows as empty text and the document
    is still emitted; a missing required field ([topic], [content], [name],
    [info]) raises [KeyError] for that field, and a batch that holds such
    a record is aborted: [ingest] yields no document sequence. *)
Theorem missing_field_policy :
  (∀ item name info,
     item !! "type" = Some "letter" ->
     item !! "name" = Some name ->
     item !! "info" = Some info ->
     shown None = EmptyString
     ∧ ∃ doc, flatten item = Ok (Some doc)
         ∧ doc = "Letter name: " +:+ name
               +:+ ". Jawi character form: " +:+ shown (item !! "character")
               +:+ ". Info: " +:+ info
               +:+ " Example word in Latin is '"
               +:+ shown (item !! "latin_example")
               +:+ "' and in Jawi is '" +:+ shown (item !! "jawi_example")
               +:+ "'.")
  ∧ (∀ knowledge_base,
       Exists lacks_required knowledge_base ->
       ∃ item field,
         item ∈ knowledge_base ∧ field ∈ required_fields item
         ∧ item !! field = None
         ∧ ingest knowledge_base = Raise (KeyError (repr_str field))).
Proof.
  split.
  - intros item name info Ht Hn Hi. split; [reflexivity|].
    eexists. split; [|reflexivity].
    now rewrite (flatten_letter item name info Ht Hn Hi).
  - intros kb Hex.
    destruct (ingest_loop_raise kb Hex [])
      as (e & He & it & field & Hin & Hreq & Hnone & ->).
    exists it, field. auto.
Qed.

Lemma missing_field_policy_witness :
  (∃ doc, flatten alif_item = Ok (Some doc))
  ∧ ∃ item field,
      item ∈ [topic_item; nameless_item; alif_item]
      ∧ field ∈ required_fields item
      ∧ item !! field = None
      ∧ ingest [topic_item; nameless_item; alif_item]
        = Raise (KeyError (repr_str field)).
Proof.
  split.
  - destruct (proj1 missing_field_policy alif_item "Alif" "First letter.")
      as (_ & doc & Hdoc & _); [reflexivity..|].
    exists doc. exact Hdoc.
  - apply (proj2 missing_field_policy).
    apply Exists_cons_tl, Exists_cons_hd.
    exists "name". split; [|reflexivity].
    vm_compute. apply list_elem_of_here.
Defined.

End Compiler.

(** ** The exact-match index *)

Section ExactMatchIndex.

Implicit Types (documents : list string) (document_lookup : gmap string string).

Lemma startswith_nonempty (d : string) :
  startswith d "Letter name:" = true -> ∃ c rest, d = String c rest.
Proof. destruct d as [|c rest]; [discriminate | eauto]. Qed.

(** Every entry of the index was put there by the loop: its document is a
    loaded letter document and its key is that document's name. *)
Lemma document_lookup_loop_entries documents document_lookup (key doc : string) :
  document_lookup_loop documents document_lookup !! key = Some doc ->
  document_lookup !! key = Some doc
  ∨ (doc ∈ documents ∧ startswith doc "Letter name:" = true
     ∧ letter_name doc = Ok key).
Proof.
  revert document_lookup.
  induction documents as [|d rest IH]; intros acc; cbn [document_lookup_loop].
  - auto.
  - intros [Hacc | (Hin & Hp & Hk)]%IH.
    + destruct (startswith d "Letter name:") eqn:Hp; [|auto].
      destruct (letter_name d) as [name|e] eqn:Hname; [|auto].
      destruct (decide (name = key)) as [->|Hne].
      * rewrite lookup_insert_eq in Hacc. injection Hacc as ->.
        right. split; [apply list_elem_of_here | auto].
      * rewrite lookup_insert_ne in Hacc by exact Hne. auto.
    + right. split; [now apply list_elem_of_further | auto].
Qed.

Lemma document_lookup_entries documents (key doc : string) :
  document_lookup documents !! key = Some doc ->
  doc ∈ documents ∧ startswith doc "Letter name:" = true
  ∧ letter_name doc = Ok key.
Proof.
  unfold document_lookup.
  intros [Hempty | H]%document_lookup_loop_entries; [|exact H].
  now rewrite lookup_empty in Hempty.
Qed.

(** A letter document is found under its name as long as no other
    letter document takes the same key. *)
Lemma document_lookup_loop_unique documents document_lookup (key doc : string) :
  startswith doc "Letter name:" = true ->
  letter_name doc = Ok key ->
  (∀ d, d ∈ documents -> startswith d "Letter name:" = true ->
        letter_name d = Ok key -> d = doc) ->
  doc ∈ documents ∨ document_lookup !! key = Some doc ->
  document_lookup_loop documents document_lookup !! key = Some doc.
Proof.
  intros Hp Hk. revert document_lookup.
  induction documents as [|d rest IH]; intros acc Huniq Hin;
    cbn [document_lookup_loop].
  - destruct Hin as [Hin%elem_of_nil | Hacc]; [contradiction | exact Hacc].
  - apply IH.
    { intros d' Hd'. apply Huniq. now apply list_elem_of_further. }
    destruct Hin as [[-> | Hin]%elem_of_cons | Hacc].
    + right. rewrite Hp, Hk. apply lookup_insert_eq.
    + now left.
    + right. destruct (startswith d "Letter name:") eqn:Hpd; [|exact Hacc].
      destruct (letter_name d) as [name|e] eqn:Hname; [|exact Hacc].
      destruct (decide (name = key)) as [->|Hne].
      * rewrite (Huniq d (list_elem_of_here _ _) Hpd Hname).
        apply lookup_insert_eq.
      * now rewrite lookup_insert_ne.
Qed.

End ExactMatchIndex.

(** ** Runs of the handlers *)

Section Handlers.

Variable w : world.

Implicit Types (data : request) (p : payload) (user_query hint : string).

Lemma retrieve_hit (search_query doc : string) :
  document_lookup (documents w) !! strip (lower search_query) = Some doc ->
  retrieve w search_query
  = Run [Lookup (strip (lower search_query))] (Ok (ExactMatch doc)).
Proof. intros H. unfold retrieve. cbn. rewrite H. reflexivity. Qed.

Lemma retrieve_miss (search_query : string) :
  document_lookup (documents w) !! strip (lower search_query) = None ->
  retrieve w search_query = semantic_run w search_query.
Proof.
  intros H. unfold retrieve, semantic_run. cbn. rewrite H. cbn.
  destruct (fst _ <=? RELEVANCE_THRESHOLD)%float; [|reflexivity].
  cbn. destruct (list_getitem _ _); reflexivity.
Qed.

Lemma retrieve_trace_retrieval (search_query : string) :
  Forall (fun ev => is_retrieval ev = true) (trace (retrieve w search_query)).
Proof.
  destruct (document_lookup (documents w) !! strip (lower search_query))
    as [doc|] eqn:H.
  - rewrite (retrieve_hit _ _ H). repeat constructor.
  - rewrite (retrieve_miss _ H). repeat constructor.
Qed.

Lemma retrieve_trace_head (search_query : string) :
  ∃ rest, trace (retrieve w search_query)
          = Lookup (strip (lower search_query)) :: rest.
Proof.
  destruct (document_lookup (documents w) !! strip (lower search_query))
    as [doc|] eqn:H.
  - rewrite (retrieve_hit _ _ H). eauto.
  - rewrite (retrieve_miss _ H). cbn. eauto.
Qed.

(** The generation step makes exactly one POST and always returns. *)
Lemma generate_run p :
  generate w p = Run [Post p] (Ok (generated (requests_post w p))).
Proof.
  unfold generate, try_except, do_post, generated. cbn.
  destruct (requests_post w p) as [e|r]; cbn; [reflexivity|].
  destruct (read_response r); reflexivity.
Qed.

(** A request that passes validation runs retrieval on the search query,
    then generation on the payload prepared from the outcome. *)
Lemma chat_validated data user_query :
  query data = Some user_query -> user_query ≠ EmptyString ->
  chat w data
  = (outcome ← retrieve w (search_query (context data) user_query);
     generate w (prepare_payload (retrieved_context outcome)
                   (history data) user_query)).
Proof.
  intros Hq Hne. unfold chat. rewrite Hq.
  destruct user_query; [congruence | reflexivity].
Qed.

Lemma chat_run data user_query :
  query data = Some user_query -> user_query ≠ EmptyString ->
  chat w data
  = let r := retrieve w (search_query (context data) user_query) in
    match returned r with
    | Ok outcome =>
        let p := prepare_payload (retrieved_context outcome)
                   (history data) user_query in
        Run (trace r ++ [Post p]) (Ok (generated (requests_post w p)))
    | Raise e => Run (trace r) (Raise e)
    end.
Proof.
  intros Hq Hne. rewrite (chat_validated _ _ Hq Hne).
  unfold mbind, M_bind. cbn zeta.
  destruct (returned (retrieve w _)); [|reflexivity].
  now rewrite generate_run.
Qed.

(** The payloads that [chat] posts are those prepared from the outcome of
    its retrieval. *)
Lemma chat_posted data user_query p :
  query data = Some user_query -> user_query ≠ EmptyString ->
  Post p ∈ trace (chat w data) ->
  ∃ outcome,
    returned (retrieve w (search_query (context data) user_query)) = Ok outcome
    ∧ p = prepare_payload (retrieved_context outcome) (history data) user_query.
Proof.
  intros Hq Hne. rewrite (chat_run _ _ Hq Hne). cbn zeta.
  pose proof (retrieve_trace_retrieval (search_query (context data) user_query))
    as Hall.
  rewrite Forall_forall in Hall.
  destruct (returned (retrieve w _)) as [outcome|e]; cbn [trace].
  - intros [Hin | Hin]%elem_of_app.
    + apply Hall in Hin. discriminate.
    + apply list_elem_of_singleton in Hin. injection Hin as ->. eauto.
  - intros Hin. apply Hall in Hin. discriminate.
Qed.

End Handlers.

(** ** Comparison of distances *)

Lemma SFltb_not_SFleb (x y : spec_float) : SFltb x y = true -> SFleb y x = false.
Proof.
  unfold SFltb, SFleb, SFcompare.
  destruct x as [ [] | [] | | [] mx ex], y as [ [] | [] | | [] my ey];
    try congruence;
    rewrite (Z.compare_antisym ex ey);
    destruct (Z.compare ex ey); unfold CompOpp; try congruence;
    fold (Pos.compare mx my) (Pos.compare my mx);
    rewrite (Pos.compare_antisym mx my);
    destruct (Pos.compare mx my); unfold CompOpp; congruence.
Qed.

(** A distance that exceeds the threshold is not within it. *)
Lemma exceeds_not_within (x y : float) :
  (x <? y)%float = true -> (y <=? x)%float = false.
Proof. rewrite ltb_spec, leb_spec. apply SFltb_not_SFleb. Qed.

(** ** Tier selection and prompt assembly *)

Section Tiers.

Variable w : world.

Implicit Types (data : request) (p : payload) (user_query hint doc : string).

(** An exact hit: the run of retrieval and the calls of the whole
    request. *)
Lemma exact_hit_run data user_query doc :
  query data = Some user_query -> user_query ≠ EmptyString ->
  document_lookup (documents w)
    !! strip (lower (search_query (context data) user_query)) = Some doc ->
  retrieve w (search_query (context data) user_query)
  = Run [Lookup (strip (lower (search_query (context data) user_query)))]
      (Ok (ExactMatch doc))
  ∧ trace (chat w data)
    = [Lookup (strip (lower (search_query (context data) user_query)));
       Post (grounded_payload doc (history data) user_query)].
Proof.
  intros Hq Hne Hhit.
  pose proof (retrieve_hit w _ _ Hhit) as Hr.
  split; [exact Hr|].
  rewrite (chat_run w _ _ Hq Hne). cbn zeta. rewrite Hr. cbn.
  apply document_lookup_entries in Hhit as (_ & Hp & _).
  apply startswith_nonempty in Hp as (c & rest & ->). reflexivity.
Qed.

(** C1: when the normalised search term is a key of the exact-match index,
    retrieval stops at the dictionary probe with [ExactMatch] of the
    document under that key; the request then makes one POST, of the
    grounded payload built from that document, and no call of the
    semantic-search branch (neither [Encode] nor [Search]). *)
Theorem exact_match_short_circuits data user_query doc :
  query data = Some user_query -> user_query ≠ EmptyString ->
  document_lookup (documents w)
    !! strip (lower (search_query (context data) user_query)) = Some doc ->
  let key := strip (lower (search_query (context data) user_query)) in
  retrieve w (search_query (context data) user_query)
  = Run [Lookup key] (Ok (ExactMatch doc))
  ∧ trace (chat w data)
    = [Lookup key; Post (grounded_payload doc (history data) user_query)]
  ∧ Forall (fun ev => is_semantic ev = false) (trace (chat w data)).
Proof.
  intros Hq Hne Hhit key.
  destruct (exact_hit_run data user_query doc Hq Hne Hhit) as [Hr Ht].
  split; [exact Hr|]. split; [exact Ht|].
  rewrite Ht. repeat constructor.
Qed.

(** C2 (amended): with no exact match, a nearest-neighbour distance
    within [RELEVANCE_THRESHOLD] (1.0) gives [SemanticMatch] of
    [documents[index]] when that subscript denotes a loaded document; a
    distance that exceeds the threshold gives [NoMatch], and the request
    posts the guarded-fallback payload: the clarification system prompt,
    the history, and the query alone as the last turn, with no context
    segment. *)
Theorem semantic_match_within_threshold data user_query :
  query data = Some user_query -> user_query ≠ EmptyString ->
  let search := search_query (context data) user_query in
  document_lookup (documents w) !! strip (lower search) = None ->
  let found := index_search w (retriever_encode w search) in
  RELEVANCE_THRESHOLD = 1%float
  ∧ (∀ doc,
       (fst found <=? RELEVANCE_THRESHOLD)%float = true ->
       list_getitem (documents w) (snd found) = Ok doc ->
       returned (retrieve w search) = Ok (SemanticMatch doc (fst found)))
  ∧ ((RELEVANCE_THRESHOLD <? fst found)%float = true ->
     returned (retrieve w search) = Ok NoMatch
     ∧ trace (chat w data)
       = [Lookup (strip (lower search)); Encode search;
          Search (retriever_encode w search);
          Post (fallback_payload (history data) user_query)]
     ∧ fallback_payload (history data) user_query
       = Payload MODEL_NAME
           (Message "system" FALLBACK_SYSTEM_PROMPT
              :: history data ++ [Message "user" user_query])
           1024 0.7%float).
Proof.
  intros Hq Hne search Hmiss found.
  pose proof (retrieve_miss w _ Hmiss) as Hr. fold search in Hr.
  split; [reflexivity|]. split.
  - intros doc Hle Hdoc. rewrite Hr. unfold semantic_run. cbn.
    fold found. now rewrite Hle, Hdoc.
  - intros Hgt. apply exceeds_not_within in Hgt.
    assert (returned (retrieve w search) = Ok NoMatch) as Hret.
    { rewrite Hr. unfold semantic_run. cbn. fold found. now rewrite Hgt. }
    split; [exact Hret|]. split; [|reflexivity].
    rewrite (chat_run w _ _ Hq Hne). cbn zeta. fold search.
    rewrite Hret. rewrite Hr. reflexivity.
Qed.

End Tiers.

(** The theorems above, on concrete requests. *)

Lemma exact_match_short_circuits_witness :
  retrieve near_world "  CA final "
  = Run [Lookup "ca final"] (Ok (ExactMatch ca_doc))
  ∧ trace (chat near_world (Request (Some "What is this?") [] (Some "  CA final ")))
    = [Lookup "ca final"; Post (grounded_payload ca_doc [] "What is this?")]
  ∧ Forall (fun ev => is_semantic ev = false)
      (trace (chat near_world
                (Request (Some "What is this?") [] (Some "  CA final ")))).
Proof.
  apply (exact_match_short_circuits near_world
           (Request (Some "What is this?") [] (Some "  CA final "))
           "What is this?" ca_doc).
  - reflexivity.
  - discriminate.
  - vm_compute. reflexivity.
Defined.

(** C2, as stated, fails: with no document loaded, a query without an
    exact match whose nearest neighbour is within the threshold has no
    [SemanticMatch] outcome; the subscript [documents[index]] raises
    [IndexError], which escapes the handler before any POST. *)
Lemma within_threshold_without_document :
  document_lookup (documents unloaded_world) !! strip (lower "alif") = None
  ∧ index_search unloaded_world (retriever_encode unloaded_world "alif")
    = (0.25%float, 0)
  ∧ (0.25 <=? RELEVANCE_THRESHOLD)%float = true
  ∧ list_getitem (documents unloaded_world) 0
    = Raise (IndexError "list index out of range")
  ∧ retrieve unloaded_world "alif"
    = Run [Lookup "alif"; Encode "alif"; Search [0%float]]
        (Raise (IndexError "list index out of range"))
  ∧ chat unloaded_world (Request (Some "alif") [] None)
    = Run [Lookup "alif"; Encode "alif"; Search [0%float]]
        (Raise (IndexError "list index out of range")).
Proof. repeat split; vm_compute; reflexivity. Qed.

Lemma semantic_match_within_threshold_witness :
  returned (retrieve near_world "script") = Ok (SemanticMatch topic_doc 0.25%float)
  ∧ returned (retrieve far_world "What is the weather today?") = Ok NoMatch
  ∧ trace (chat far_world (Request (Some "What is the weather today?") [] None))
    = [Lookup "what is the weather today?";
       Encode "What is the weather today?"; Search [0%float];
       Post (fallback_payload [] "What is the weather today?")].
Proof.
  split; [|split].
  - apply (proj1 (proj2 (semantic_match_within_threshold near_world
             (Request (Some "script") [] None) "script"
             eq_refl ltac:(discriminate) ltac:(vm_compute; reflexivity)))
             topic_doc); reflexivity.
  - apply (proj2 (proj2 (semantic_match_within_threshold far_world
             (Request (Some "What is the weather today?") [] None)
             "What is the weather today?"
             eq_refl ltac:(discriminate) ltac:(vm_compute; reflexivity))));
      reflexivity.
  - apply (proj2 (proj2 (semantic_match_within_threshold far_world
             (Request (Some "What is the weather today?") [] None)
             "What is the weather today?"
             eq_refl ltac:(discriminate) ltac:(vm_compute; reflexivity))));
      reflexivity.
Defined.

(** ** Search term, validation and history *)

Section Requests.

Variable w : world.

Implicit Types (data : request) (p : payload) (user_query hint doc : string).






(** C5, as stated, fails: a query of one space normalises to the empty
    string, yet the request is not rejected; it probes the dictionary,
    runs the semantic search and calls the generation endpoint. *)
Lemma blank_query_is_not_rejected :
  strip (lower " ") = EmptyString
  ∧ chat far_world (Request (Some " ") [] None)
    = Run [Lookup EmptyString; Encode " "; Search [0%float];
           Post (fallback_payload [] " ")]
        (Ok (Reply (ResponseJson "Hello.") 200)).
Proof. split; vm_compute; reflexivity. Qed.

(** C5 (amended): a request whose query is absent, or is the empty string
    as received, is rejected with status 400 before any call: no dictionary
    probe, no semantic search, no generation.  Any other query, whatever
    it normalises to, passes validation and reaches the dictionary probe. *)
Theorem absent_or_empty_query_is_rejected data :
  (query data = None ∨ query data = Some EmptyString ->
   chat w data = Run [] (Ok (Reply (ErrorJson "Query not found") 400)))
  ∧ (∀ user_query,
       query data = Some user_query -> user_query ≠ EmptyString ->
       ∃ rest,
         trace (chat w data)
         = Lookup (strip (lower (search_query (context data) user_query)))
             :: rest).
Proof.
  split.
  - unfold chat. intros [-> | ->]; reflexivity.
  - intros user_query Hq Hne. rewrite (chat_run _ _ _ Hq Hne). cbn zeta.
    destruct (retrieve_trace_head w (search_query (context data) user_query))
      as [rest Hrest].
    destruct (returned (retrieve w _)); cbn [trace]; rewrite Hrest; eauto.
Qed.

(** C10: two requests with the same query and the same context hint run
    the same retrieval, with the same calls and the same outcome, whatever
    their histories; the payloads they post are prepared from that one
    outcome and differ in the history turns only. *)
Theorem retrieval_ignores_history user_query (initial_context : option string)
    (history1 history2 : list message) :
  user_query ≠ EmptyString ->
  let data1 := Request (Some user_query) history1 initial_context in
  let data2 := Request (Some user_query) history2 initial_context in
  let retrieval := retrieve w (search_query initial_context user_query) in
  chat w data1
  = (outcome ← retrieval;
     generate w (prepare_payload (retrieved_context outcome) history1 user_query))
  ∧ chat w data2
    = (outcome ← retrieval;
       generate w (prepare_payload (retrieved_context outcome) history2 user_query))
  ∧ filter (fun ev => is_retrieval ev = true) (trace (chat w data1))
    = filter (fun ev => is_retrieval ev = true) (trace (chat w data2))
  ∧ ∀ p1 p2,
      Post p1 ∈ trace (chat w data1) -> Post p2 ∈ trace (chat w data2) ->
      ∃ outcome,
        returned retrieval = Ok outcome
        ∧ p1 = prepare_payload (retrieved_context outcome) history1 user_query
        ∧ p2 = prepare_payload (retrieved_context outcome) history2 user_query.
Proof.
  intros Hne data1 data2 retrieval.
  split; [exact (chat_validated w data1 user_query eq_refl Hne)|].
  split; [exact (chat_validated w data2 user_query eq_refl Hne)|].
  split.
  - rewrite (chat_run w data1 user_query eq_refl Hne).
    rewrite (chat_run w data2 user_query eq_refl Hne).
    unfold data1, data2. cbn zeta. cbn [context history].
    destruct (returned (retrieve w (search_query initial_context user_query)));
      cbn [trace]; [|reflexivity].
    now rewrite !filter_app.
  - intros p1 p2 Hp1 Hp2.
    apply (chat_posted w data1 user_query p1 eq_refl Hne) in Hp1
      as (o1 & H1 & ->).
    apply (chat_posted w data2 user_query p2 eq_refl Hne) in Hp2
      as (o2 & H2 & ->).
    cbn in H1, H2. exists o1. rewrite H1 in H2. injection H2 as <-. auto.
Qed.

End Requests.


Lemma absent_or_empty_query_is_rejected_witness :
  chat far_world (Request None [] (Some "Alif"))
  = Run [] (Ok (Reply (ErrorJson "Query not found") 400))
  ∧ ∃ rest,
      trace (chat far_world (Request (Some " ") [] None))
      = Lookup EmptyString :: rest.
Proof.
  split.
  - apply (proj1 (absent_or_empty_query_is_rejected far_world
                    (Request None [] (Some "Alif")))).
    left. reflexivity.
  - apply (proj2 (absent_or_empty_query_is_rejected far_world
                    (Request (Some " ") [] None)) " ");
      [reflexivity | discriminate].
Defined.

Lemma retrieval_ignores_history_witness :
  filter (fun ev => is_retrieval ev = true)
    (trace (chat near_world (Request (Some "alif") [] None)))
  = filter (fun ev => is_retrieval ev = true)
      (trace (chat near_world
                (Request (Some "alif") [Message "user" "hello"] None))).
Proof.
  apply (retrieval_ignores_history near_world "alif" None []
           [Message "user" "hello"]).
  discriminate.
Defined.

(** ** Generation: parameters and failures *)

Lemma list_getitem_head {A} (x : A) (l : list A) :
  list_getitem (x :: l) 0 = Ok x.
Proof.
  unfold list_getitem, seq_getitem. cbn [Z.ltb Z.compare orb].
  replace (Z.of_nat (length (x :: l)) <=? 0) with false; [reflexivity|].
  symmetry. apply Z.leb_gt. cbn [length]. lia.
Qed.

Section Generation.

Variable w : world.

Implicit Types (data : request) (p : payload) (r : response).

Lemma chat_creative_run data user_query :
  query data = Some user_query -> user_query ≠ EmptyString ->
  chat_creative w data
  = Run [Post (creative_payload user_query)]
      (Ok (generated (requests_post w (creative_payload user_query)))).
Proof.
  intros Hq Hne. unfold chat_creative. rewrite Hq.
  destruct user_query as [|c q]; [congruence|].
  apply (generate_run w (creative_payload (String c q))).
Qed.

Lemma chat_creative_posted data p :
  Post p ∈ trace (chat_creative w data) ->
  ∃ user_query, query data = Some user_query ∧ p = creative_payload user_query.
Proof.
  destruct (query data) as [[|c q]|] eqn:Hq.
  - unfold chat_creative. rewrite Hq. now intros ?%elem_of_nil.
  - rewrite (chat_creative_run data (String c q) Hq) by discriminate.
    intros [= ->]%list_elem_of_singleton. eauto.
  - unfold chat_creative. rewrite Hq. now intros ?%elem_of_nil.
Qed.

Lemma chat_posted_any data p :
  Post p ∈ trace (chat w data) ->
  ∃ user_query outcome,
    query data = Some user_query
    ∧ p = prepare_payload (retrieved_context outcome) (history data) user_query.
Proof.
  destruct (query data) as [[|c q]|] eqn:Hq.
  - unfold chat. rewrite Hq. now intros ?%elem_of_nil.
  - intros (outcome & _ & ->)%(chat_posted w data (String c q));
      [eauto | exact Hq | discriminate].
  - unfold chat. rewrite Hq. now intros ?%elem_of_nil.
Qed.

(** C8: the generation parameters are fixed per mode: grounded 0.5 and
    300 tokens, guarded fallback 0.7 and 1024, creative 0.8 and 150; the
    temperatures increase in that order and the creative cap is the
    smallest.  A request to [chat] whose retrieval yields a non-empty
    document posts the grounded payload of that document, with 0.5 and
    300; one whose retrieval yields no document (or an empty one) posts the
    fallback payload, with 0.7 and 1024; a request to [chat_creative] posts
    the creative payload, with 0.8 and 150. *)
Theorem generation_parameters_per_mode :
  (∀ doc chat_history user_query,
     temperature (grounded_payload doc chat_history user_query) = 0.5%float
     ∧ max_tokens (grounded_payload doc chat_history user_query) = 300)
  ∧ (∀ chat_history user_query,
       temperature (fallback_payload chat_history user_query) = 0.7%float
       ∧ max_tokens (fallback_payload chat_history user_query) = 1024)
  ∧ (∀ user_query,
       temperature (creative_payload user_query) = 0.8%float
       ∧ max_tokens (creative_payload user_query) = 150)
  ∧ ((0.5 <? 0.7)%float = true ∧ (0.7 <? 0.8)%float = true
     ∧ 150 < 300 ∧ 150 < 1024)
  ∧ (∀ data p,
       Post p ∈ trace (chat w data) ->
       ∃ user_query outcome,
         p = match retrieved_context outcome with
             | Some (String c doc) =>
                 grounded_payload (String c doc) (history data) user_query
             | _ => fallback_payload (history data) user_query
             end)
  ∧ (∀ data p,
       Post p ∈ trace (chat_creative w data) ->
       ∃ user_query, p = creative_payload user_query)
  ∧ (∀ data user_query outcome,
       query data = Some user_query -> user_query ≠ EmptyString ->
       returned (retrieve w (search_query (context data) user_query))
       = Ok outcome ->
       ∃ p,
         trace (chat w data)
         = trace (retrieve w (search_query (context data) user_query))
             ++ [Post p]
         ∧ (∀ doc,
              retrieved_context outcome = Some doc -> doc ≠ EmptyString ->
              p = grounded_payload doc (history data) user_query
              ∧ temperature p = 0.5%float ∧ max_tokens p = 300)
         ∧ (retrieved_context outcome = None
            ∨ retrieved_context outcome = Some EmptyString ->
            p = fallback_payload (history data) user_query
            ∧ temperature p = 0.7%float ∧ max_tokens p = 1024)
         ∧ (∀ doc, outcome = ExactMatch doc ->
              temperature p = 0.5%float ∧ max_tokens p = 300)
         ∧ (outcome = NoMatch ->
            temperature p = 0.7%float ∧ max_tokens p = 1024))
  ∧ (∀ data user_query,
       query data = Some user_query -> user_query ≠ EmptyString ->
       ∃ p,
         trace (chat_creative w data) = [Post p]
         ∧ p = creative_payload user_query
         ∧ temperature p = 0.8%float ∧ max_tokens p = 150).
Proof.
  split; [intros; split; reflexivity|].
  split; [intros; split; reflexivity|].
  split; [intros; split; reflexivity|].
  split; [repeat split; reflexivity|].
  split; [|split; [|split]].
  - intros data p (user_query & outcome & _ & ->)%chat_posted_any.
    exists user_query, outcome. unfold prepare_payload.
    destruct (retrieved_context outcome) as [[|c doc]|]; reflexivity.
  - intros data p (user_query & _ & ->)%chat_creative_posted. eauto.
  - intros data user_query outcome Hq Hne Hret.
    exists (prepare_payload (retrieved_context outcome) (history data)
              user_query).
    split.
    { rewrite (chat_run w data user_query Hq Hne). cbn zeta.
      now rewrite Hret. }
    assert (∀ doc, outcome = ExactMatch doc -> doc ≠ EmptyString) as Hexact.
    { intros doc ->.
      destruct (document_lookup (documents w)
                  !! strip (lower (search_query (context data) user_query)))
        as [hit|] eqn:Hl.
      - rewrite (retrieve_hit w _ hit Hl) in Hret. injection Hret as <-.
        apply document_lookup_entries in Hl as (_ & Hp & _).
        now destruct hit.
      - rewrite (retrieve_miss w _ Hl) in Hret. unfold semantic_run in Hret.
        cbn [returned] in Hret.
        destruct (fst _ <=? RELEVANCE_THRESHOLD)%float; [|discriminate].
        destruct (list_getitem _ _); discriminate. }
    split; [|split; [|split]].
    + intros doc -> Hdoc. unfold prepare_payload.
      destruct doc; [congruence | repeat split].
    + intros [-> | ->]; repeat split.
    + intros doc ->. pose proof (Hexact doc eq_refl) as Hdoc.
      cbn [retrieved_context]. unfold prepare_payload.
      destruct doc; [congruence | split; reflexivity].
    + intros ->. split; reflexivity.
  - intros data user_query Hq Hne. exists (creative_payload user_query).
    rewrite (chat_creative_run data user_query Hq Hne).
    repeat split.
Qed.

(** A response is read successfully only when its status is not an error
    status and its body decodes to the expected shape; the reply is then the
    stripped content with status 200. *)
Lemma read_response_ok r (rep : reply) :
  read_response r = Ok rep ->
  ¬ (400 <= status_code r < 600)
  ∧ ∃ v text, json_body r = Ok v ∧ expected_shape v text
              ∧ rep = Reply (ResponseJson (strip text)) 200.
Proof.
  unfold read_response, raise_for_status.
  destruct ((400 <=? status_code r) && (status_code r <? 600)) eqn:Hs;
    [discriminate|].
  cbn. intros H. split; [lia|].
  destruct (json_body r) as [v|e]; [|now cbn in H]. cbn in H.
  destruct v as [| | | | |l|top]; try (now cbn in H). cbn in H.
  unfold dict_getitem in H.
  destruct (top !! "choices") as [choices|] eqn:Hc; [|now cbn in H].
  cbn in H.
  destruct choices as [| | | |s|l|o]; try (now cbn in H).
  - cbn in H. now destruct (seq_getitem "string" _ 0); cbn in H.
  - unfold getitem_index in H.
    destruct l as [|choice others]; [now cbn in H|].
    rewrite list_getitem_head in H. cbn in H.
    destruct choice as [| | | | |l'|choice]; try (now cbn in H). cbn in H.
    unfold dict_getitem in H.
    destruct (choice !! "message") as [msg|] eqn:Hm; [|now cbn in H].
    cbn in H.
    destruct msg as [| | | | |l'|msg]; try (now cbn in H). cbn in H.
    unfold dict_getitem in H.
    destruct (msg !! "content") as [content|] eqn:Hcontent; [|now cbn in H].
    cbn in H.
    destruct content as [| | | |text| |]; try (now cbn in H). cbn in H.
    injection H as <-.
    exists (JObj top), text. repeat split. econstructor; eassumption.
Qed.

(** Each failure of the round trip makes [generated] an error reply with
    status 500 that carries the text of the exception. *)
Lemma generated_failure (outcome : post_outcome) :
  delegate_failure outcome ->
  ∃ e, generated outcome = Reply (ErrorJson (str e)) 500.
Proof.
  intros Hfail. unfold generated.
  destruct Hfail as [e | r Hs | r e He | r v Hv Hshape]; [eauto|..];
    destruct (read_response r) as [rep|e'] eqn:Hr; eauto;
    apply read_response_ok in Hr as (Hstatus & v' & text & Hv' & Hsh & _);
    exfalso.
  - auto.
  - congruence.
  - rewrite Hv in Hv'. injection Hv' as <-. exact (Hshape text Hsh).
Qed.

(** The body of the [try], step by step. *)
Lemma read_response_steps r :
  read_response r
  = (_ ← raise_for_status r;
     response_data ← json_body r;
     text ← extract_content response_data;
     Ok (Reply (ResponseJson text) 200)).
Proof.
  unfold read_response, extract_content.
  destruct (raise_for_status r); cbn; [|reflexivity].
  destruct (json_body r) as [v|e]; cbn; [|reflexivity].
  destruct (getitem_key v "choices") as [choices|e]; cbn; [|reflexivity].
  destruct (getitem_index choices 0) as [choice|e]; cbn; [|reflexivity].
  destruct (getitem_key choice "message") as [msg|e]; cbn; [|reflexivity].
  destruct (getitem_key msg "content") as [content|e]; cbn; [|reflexivity].
  destruct (method_strip content); reflexivity.
Qed.

Lemma raise_for_status_error r :
  400 <= status_code r < 600 ->
  raise_for_status r = Raise (HTTPError (http_error_text r)).
Proof.
  intros Hs. unfold raise_for_status.
  replace ((400 <=? status_code r) && (status_code r <? 600)) with true;
    [reflexivity|].
  symmetry. apply andb_true_iff. lia.
Qed.

Lemma raise_for_status_pass r :
  ¬ (400 <= status_code r < 600) -> raise_for_status r = Ok tt.
Proof.
  intros Hs. unfold raise_for_status.
  replace ((400 <=? status_code r) && (status_code r <? 600)) with false;
    [reflexivity|].
  symmetry. apply andb_false_iff. lia.
Qed.

(** The failed step decides the reply: its exception, as text, with
    status 500. *)
Lemma generated_cause (outcome : post_outcome) (e : exn) :
  failure_cause outcome e ->
  generated outcome = Reply (ErrorJson (str e)) 500.
Proof.
  intros Hcause. unfold generated.
  destruct Hcause as [e | r Hs | r e Hs He | r v e Hs Hv He];
    [reflexivity|..]; rewrite read_response_steps.
  - now rewrite (raise_for_status_error r Hs).
  - rewrite (raise_for_status_pass r Hs). cbn. now rewrite He.
  - rewrite (raise_for_status_pass r Hs). cbn. rewrite Hv. cbn.
    now rewrite He.
Qed.

(** A failed round trip has a failed step. *)
Lemma failure_has_cause (outcome : post_outcome) :
  delegate_failure outcome -> ∃ e, failure_cause outcome e.
Proof.
  intros Hfail.
  destruct Hfail as [e | r Hs | r e He | r v Hv Hshape].
  - eexists. constructor.
  - eexists. now apply cause_status.
  - destruct (decide (400 <= status_code r < 600)) as [Hs|Hs].
    + eexists. now apply cause_status.
    + eexists. now apply (cause_body r e).
  - destruct (decide (400 <= status_code r < 600)) as [Hs|Hs].
    + eexists. now apply cause_status.
    + destruct (extract_content v) as [text|e] eqn:He.
      * exfalso.
        assert (read_response r = Ok (Reply (ResponseJson text) 200)) as Hr.
        { rewrite read_response_steps, (raise_for_status_pass r Hs). cbn.
          rewrite Hv. cbn. now rewrite He. }
        apply read_response_ok in Hr as (_ & v' & text' & Hv' & Hsh & _).
        rewrite Hv in Hv'. injection Hv' as <-. exact (Hshape text' Hsh).
      * eexists. now apply (cause_shape r v e).
Qed.

(** The exceptions of the extraction all carry a text. *)
Lemma extract_content_raise_text (v : json) (e : exn) :
  extract_content v = Raise e -> str e ≠ EmptyString.
Proof.
  assert (∀ (A : Type) (l : list A) (i : Z) (e' : exn) (kind : string),
            seq_getitem kind l i = @Raise A e' ->
            e' = IndexError (kind +:+ " index out of range")) as Hseq.
  { intros A l i e' kind. unfold seq_getitem.
    destruct ((_ <? 0) || _); [now intros [= <-]|].
    destruct (l !! _); [discriminate | now intros [= <-]]. }
  assert (∀ (o : gmap string json) (k : string) (e' : exn),
            dict_getitem o k = Raise e' -> e' = KeyError (repr_str k)) as Hdict.
  { intros o k e'. unfold dict_getitem.
    destruct (o !! k); [discriminate | now intros [= <-]]. }
  assert (∀ (x : json) (k : string) (e' : exn),
            getitem_key x k = Raise e' -> str e' ≠ EmptyString) as Hkey.
  { intros x k e'. destruct x; cbn [getitem_key]; try (now intros [= <-]).
    intros ->%Hdict. discriminate. }
  unfold extract_content.
  destruct (getitem_key v "choices") as [choices|e1] eqn:H1; cbn;
    [|intros [= <-]; now apply (Hkey _ _ _ H1)].
  destruct (getitem_index choices 0) as [choice|e2] eqn:H2; cbn.
  - destruct (getitem_key choice "message") as [msg|e3] eqn:H3; cbn;
      [|intros [= <-]; now apply (Hkey _ _ _ H3)].
    destruct (getitem_key msg "content") as [content|e4] eqn:H4; cbn;
      [|intros [= <-]; now apply (Hkey _ _ _ H4)].
    destruct content; cbn [method_strip]; now intros [= <-].
  - intros [= <-]. destruct choices; cbn [getitem_index] in H2;
      try (injection H2 as <-; discriminate).
    + destruct (seq_getitem "string" _ 0) eqn:Hs; [discriminate|].
      cbn in H2. injection H2 as <-. apply Hseq in Hs as ->. discriminate.
    + unfold list_getitem in H2. apply Hseq in H2 as ->. discriminate.
Qed.

(** C9 (amended): when the generation round trip fails (the POST raises,
    the status is 4xx or 5xx, the body does not decode, or the decoded body
    lacks the choices/message/content shape), the handler that made the
    call returns normally with status 500, and its error text is the text
    of the very exception that the failed step raised: the exception of the
    POST, the [HTTPError] text of the response, the exception of
    [response.json()], or the exception of the extraction, which is never
    empty.  The handler makes the one POST and returns no success reply.
    This holds for [generate], hence for [chat], and for
    [chat_creative]. *)
Theorem delegate_failure_is_a_500 p :
  delegate_failure (requests_post w p) ->
  ∃ e,
    failure_cause (requests_post w p) e
    ∧ generate w p = Run [Post p] (Ok (Reply (ErrorJson (str e)) 500))
    ∧ (∀ data, Post p ∈ trace (chat w data) ->
         returned (chat w data) = Ok (Reply (ErrorJson (str e)) 500))
    ∧ (∀ data, Post p ∈ trace (chat_creative w data) ->
         returned (chat_creative w data) = Ok (Reply (ErrorJson (str e)) 500))
    ∧ (∀ raised, requests_post w p = PostRaised raised -> e = raised)
    ∧ (∀ r, requests_post w p = PostReturned r ->
         400 <= status_code r < 600 ->
         e = HTTPError (http_error_text r) ∧ str e = http_error_text r)
    ∧ (∀ r raised, requests_post w p = PostReturned r ->
         ¬ (400 <= status_code r < 600) ->
         json_body r = Raise raised -> e = raised)
    ∧ (∀ r v, requests_post w p = PostReturned r ->
         ¬ (400 <= status_code r < 600) ->
         json_body r = Ok v ->
         extract_content v = Raise e ∧ str e ≠ EmptyString).
Proof.
  intros (e & Hcause)%failure_has_cause. exists e.
  pose proof (generated_cause _ _ Hcause) as He.
  split; [exact Hcause|]. split; [|split; [|split]].
  - rewrite generate_run. now rewrite He.
  - intros data Hin.
    destruct (chat_posted_any data p Hin) as (user_query & _ & Hq & _).
    assert (user_query ≠ EmptyString) as Hne.
    { intros ->. revert Hin. unfold chat. rewrite Hq.
      now intros ?%elem_of_nil. }
    destruct (chat_posted w data user_query p Hq Hne Hin)
      as (outcome & Hret & Hp).
    rewrite (chat_run w data user_query Hq Hne). cbn zeta.
    rewrite Hret. cbn [returned]. now rewrite <- Hp, He.
  - intros data Hin.
    destruct (chat_creative_posted data p Hin) as (user_query & Hq & Hp).
    assert (user_query ≠ EmptyString) as Hne.
    { intros ->. revert Hin. unfold chat_creative. rewrite Hq.
      now intros ?%elem_of_nil. }
    rewrite (chat_creative_run data user_query Hq Hne). cbn [returned].
    now rewrite <- Hp, He.
  - clear He. split; [|split; [|split]].
    + intros raised Hpost. rewrite Hpost in Hcause. now inversion Hcause.
    + intros r Hpost Hs. rewrite Hpost in Hcause.
      inversion Hcause; subst; [auto | contradiction | contradiction].
    + intros r raised Hpost Hs Hbody. rewrite Hpost in Hcause.
      inversion Hcause; subst; [contradiction | congruence | congruence].
    + intros r v Hpost Hs Hbody. rewrite Hpost in Hcause.
      inversion Hcause as [| |? ? ? Hb|? v' ? ? Hv' He']; subst;
        [contradiction | congruence |].
      rewrite Hbody in Hv'. injection Hv' as <-.
      split; [exact He' | now apply (extract_content_raise_text v)].
Qed.

(** Conversely, a round trip that does not fail yields the stripped
    content with status 200. *)
Lemma generated_success r (v : json) (text : string) :
  ¬ (400 <= status_code r < 600) ->
  json_body r = Ok v -> expected_shape v text ->
  generated (PostReturned r) = Reply (ResponseJson (strip text)) 200.
Proof.
  intros Hs Hv Hshape. unfold generated, read_response, raise_for_status.
  replace ((400 <=? status_code r) && (status_code r <? 600)) with false
    by (symmetry; apply andb_false_iff; lia).
  cbn. rewrite Hv. cbn. destruct Hshape as [top choice msg others t Hc Hm Ht].
  cbn. unfold dict_getitem. rewrite Hc. cbn.
  rewrite list_getitem_head. cbn.
  unfold dict_getitem. rewrite Hm. cbn.
  unfold dict_getitem. rewrite Ht. reflexivity.
Qed.

End Generation.

Lemma delegate_failure_is_a_500_witness :
  generate timeout_world (fallback_payload [] "What is the weather today?")
  = Run [Post (fallback_payload [] "What is the weather today?")]
      (Ok (Reply (ErrorJson "Read timed out. (read timeout=60)") 500)).
Proof.
  destruct (delegate_failure_is_a_500 timeout_world
              (fallback_payload [] "What is the weather today?"))
    as (e & _ & He & _ & _ & Hraised & _).
  - apply transport_failure.
  - rewrite He.
    rewrite (Hraised (RequestException "Read timed out. (read timeout=60)")
               eq_refl).
    reflexivity.
Defined.

(** C9, as stated, fails: a response with status 302, which is no success
    status, and a completion of the expected shape in its body is not
    reported as a server error; [raise_for_status] raises for 4xx and 5xx
    only, and the handler replies 200 with the content. *)
Lemma redirect_with_completion_is_a_success :
  ¬ (200 <= 302 < 300)
  ∧ requests_post redirect_world (fallback_payload [] "What is the weather today?")
    = PostReturned (Response 302 "Found" (Ok (completion " Hello. ")))
  ∧ generate redirect_world (fallback_payload [] "What is the weather today?")
    = Run [Post (fallback_payload [] "What is the weather today?")]
        (Ok (Reply (ResponseJson "Hello.") 200))
  ∧ returned (chat redirect_world
                (Request (Some "What is the weather today?") [] None))
    = Ok (Reply (ResponseJson "Hello.") 200)
  ∧ returned (chat_creative redirect_world (Request (Some "a pantun") [] None))
    = Ok (Reply (ResponseJson "Hello.") 200).
Proof.
  split; [lia|]. repeat split; vm_compute; reflexivity.
Qed.

Lemma generation_parameters_per_mode_witness :
  ∃ p,
    trace (chat near_world (Request (Some "alif") [] None))
    = trace (retrieve near_world "alif") ++ [Post p]
    ∧ temperature p = 0.5%float ∧ max_tokens p = 300.
Proof.
  destruct (proj1 (proj2 (proj2 (proj2 (proj2 (proj2 (proj2
              (generation_parameters_per_mode near_world)))))))
              (Request (Some "alif") [] None) "alif" (ExactMatch alif_doc))
    as (p & Htrace & _ & _ & Hexact & _).
  - reflexivity.
  - discriminate.
  - vm_compute. reflexivity.
  - exists p. split; [exact Htrace|]. exact (Hexact alif_doc eq_refl).
Defined.

(** ** Round trip between the compiler and the exact-match index *)

(** The key of a letter document: the normalised name segment, when the
    segment does not hold the prefix again. *)
Lemma letter_name_of_template (name rest : string) :
  contains (before name ".") "Letter name: " = false ->
  name_segment ("Letter name: " +:+ name +:+ String "." rest)
  = Some (before name ".")
  ∧ letter_name ("Letter name: " +:+ name +:+ String "." rest)
    = Ok (lower (strip (before name "."))).
Proof.
  intros Hprefix. split.
  - unfold name_segment. rewrite startswith_app.
    change (drop_chars _ _) with (name +:+ String "." rest).
    now rewrite before_stop.
  - unfold letter_name.
    destruct (split_head ("Letter name: " +:+ name +:+ String "." rest) ".")
      as [fields ->].
    rewrite list_getitem_head.
    change (before ("Letter name: " +:+ name +:+ String "." rest) ".")
      with ("Letter name: " +:+ before (name +:+ String "." rest) ".").
    rewrite before_stop. cbn. now rewrite replace_prefix.
Qed.

Lemma flatten_letter_shape (item : item) (name doc : string) :
  item !! "type" = Some "letter" ->
  item !! "name" = Some name ->
  flatten item = Ok (Some doc) ->
  ∃ rest, doc = "Letter name: " +:+ name +:+ String "." rest.
Proof.
  intros Ht Hn. destruct (item !! "info") as [info|] eqn:Hi.
  - rewrite (flatten_letter item name info Ht Hn Hi). intros [= <-].
    eexists. reflexivity.
  - unfold flatten. rewrite decide_False by (rewrite Ht; discriminate).
    rewrite decide_True by exact Ht.
    rewrite (dict_getitem_some _ _ _ Hn), (dict_getitem_none _ _ Hi).
    discriminate.
Qed.

(** A query that is the name in any casing, padded with whitespace,
    normalises to the key built from the name at startup. *)
Lemma normalized_padding (l r name name' : string) :
  all_space l = true -> all_space r = true -> lower name' = lower name ->
  strip (lower (l +:+ name' +:+ r)) = lower (strip name).
Proof.
  intros Hl Hr Hcase.
  now rewrite <- lower_strip, strip_pad, !lower_strip, Hcase.
Qed.

(** C6, as stated, fails: two letter records whose names differ in case
    only are flattened to two documents with the same key; the index keeps
    the later one, so the key extracted from the first document, and a
    query of its record's name, retrieve the other document. *)
Lemma same_key_keeps_the_later_document :
  ingest [alif_item; alif_again_item] = Ok [alif_doc; alif_again_doc]
  ∧ name_segment alif_doc = Some "Alif"
  ∧ strip (lower "Alif") = "alif"
  ∧ letter_name alif_doc = Ok "alif"
  ∧ document_lookup [alif_doc; alif_again_doc] !! "alif" = Some alif_again_doc
  ∧ alif_again_doc ≠ alif_doc
  ∧ retrieve (world_of [alif_doc; alif_again_doc] 1.5%float
                (PostReturned (ok_response "Hello."))) "Alif"
    = Run [Lookup "alif"] (Ok (ExactMatch alif_again_doc)).
Proof.
  repeat split; try (vm_compute; reflexivity). discriminate.
Qed.

(** A name with a full stop is cut at the stop: the document is filed
    under the first part, and a query of the whole name misses it. *)
Example dotted_name_is_cut :
  flatten dotted_item = Ok (Some dotted_doc)
  ∧ letter_name dotted_doc = Ok "nga"
  ∧ document_lookup [dotted_doc] !! strip (lower "Nga. Final") = None.
Proof. repeat split; vm_compute; reflexivity. Qed.

(** A name that repeats the prefix loses it: [replace] removes every
    occurrence. *)
Example repeated_prefix_is_removed :
  flatten prefixed_item = Ok (Some prefixed_doc)
  ∧ letter_name prefixed_doc = Ok "ba"
  ∧ document_lookup [prefixed_doc] !! strip (lower "Letter name: Ba") = None.
Proof. repeat split; vm_compute; reflexivity. Qed.

Section RoundTrip.

Variable w : world.

(** C6 (amended): take a document flattened from a letter record, whose
    name segment (the name up to its first full stop) does not hold the
    prefix again, and which is the only loaded letter document with its
    key.  The text between the prefix and the first full stop, normalised,
    is the key extracted at startup, and the index maps it to that
    document.  If moreover the name holds no full stop, the segment is the
    name, and a non-empty query made of the name in any casing with any
    whitespace padding, sent without a context hint, retrieves
    [ExactMatch] of that document and posts the grounded payload built
    from it. *)
Theorem letter_round_trip (item : item) (name doc : string) :
  item !! "type" = Some "letter" ->
  item !! "name" = Some name ->
  flatten item = Ok (Some doc) ->
  doc ∈ documents w ->
  (∀ d, d ∈ documents w -> startswith d "Letter name:" = true ->
        letter_name d = letter_name doc -> d = doc) ->
  contains (before name ".") "Letter name: " = false ->
  let segment := before name "." in
  name_segment doc = Some segment
  ∧ letter_name doc = Ok (lower (strip segment))
  ∧ document_lookup (documents w) !! lower (strip segment) = Some doc
  ∧ (contains name "." = false ->
     segment = name
     ∧ ∀ (l name' r : string) (chat_history : list message),
         all_space l = true -> all_space r = true ->
         lower name' = lower name ->
         l +:+ name' +:+ r ≠ EmptyString ->
         retrieve w (l +:+ name' +:+ r)
         = Run [Lookup (lower (strip name))] (Ok (ExactMatch doc))
         ∧ trace (chat w (Request (Some (l +:+ name' +:+ r)) chat_history None))
           = [Lookup (lower (strip name));
              Post (grounded_payload doc chat_history (l +:+ name' +:+ r))]).
Proof.
  intros Ht Hn Hf Hin Huniq Hprefix segment.
  destruct (flatten_letter_shape item name doc Ht Hn Hf) as [rest Hdoc].
  destruct (letter_name_of_template name rest Hprefix) as [Hseg Hkey].
  rewrite <- Hdoc in Hseg, Hkey. fold segment in Hseg, Hkey.
  assert (startswith doc "Letter name:" = true) as Hstart.
  { rewrite Hdoc. reflexivity. }
  assert (document_lookup (documents w) !! lower (strip segment) = Some doc)
    as Hlookup.
  { unfold document_lookup.
    apply document_lookup_loop_unique; [exact Hstart | exact Hkey | | now left].
    intros d Hd Hp Hk. apply Huniq; [exact Hd | exact Hp | congruence]. }
  split; [exact Hseg|]. split; [exact Hkey|]. split; [exact Hlookup|].
  intros Hdot.
  assert (segment = name) as Hname by now apply before_absent.
  split; [exact Hname|]. rewrite Hname in Hlookup.
  intros l name' r chat_history Hl Hr Hcase Hne.
  pose proof (normalized_padding l r name name' Hl Hr Hcase) as Hnorm.
  destruct (exact_hit_run w
              (Request (Some (l +:+ name' +:+ r)) chat_history None)
              (l +:+ name' +:+ r) doc eq_refl Hne) as (Hret & Htrace).
  { cbn [context search_query]. now rewrite Hnorm. }
  cbn [context search_query history] in Hret, Htrace.
  rewrite Hnorm in Hret, Htrace. auto.
Qed.

End RoundTrip.

Lemma letter_round_trip_witness :
  name_segment ca_doc = Some "Ca Final"
  ∧ letter_name ca_doc = Ok "ca final"
  ∧ document_lookup demo_documents !! "ca final" = Some ca_doc
  ∧ retrieve far_world "  CA FINAL "
    = Run [Lookup "ca final"] (Ok (ExactMatch ca_doc)).
Proof.
  destruct (letter_round_trip far_world ca_item "Ca Final" ca_doc)
    as (Hseg & Hkey & Hlookup & Hquery).
  - reflexivity.
  - reflexivity.
  - vm_compute. reflexivity.
  - vm_compute. apply list_elem_of_further, list_elem_of_further,
      list_elem_of_here.
  - intros d Hd. vm_compute in Hd.
    apply list_elem_of_In in Hd. simpl in Hd.
    destruct Hd as [<- | [<- | [<- | []]]].
    + discriminate.
    + intros _. vm_compute. discriminate.
    + reflexivity.
  - vm_compute. reflexivity.
  - split; [exact Hseg|]. split; [exact Hkey|]. split; [exact Hlookup|].
    destruct Hquery as [_ Hquery]; [vm_compute; reflexivity|].
    apply (Hquery "  " "CA FINAL" " " []); [reflexivity.. | discriminate].
Defined.

(** ** Further properties of the knowledge compiler *)

Section CompilerBehaviour.

Implicit Types (item : item) (knowledge_base : list item)
  (documents : list string).

Lemma flatten_ok_not_lacking item (text : option string) :
  flatten item = Ok text -> ¬ lacks_required item.
Proof.
  intros Hok [e He]%flatten_lacks_required. congruence.
Qed.

Lemma flatten_raise_lacking item (e : exn) :
  flatten item = Raise e -> lacks_required item.
Proof.
  intros (field & Hin & Hnone & _)%flatten_raise. exists field. auto.
Qed.

Lemma ingest_loop_ok_iff knowledge_base documents :
  (∃ out, ingest_loop knowledge_base documents = Ok out)
  ↔ Forall (fun item => ¬ lacks_required item) knowledge_base.
Proof.
  revert documents.
  induction knowledge_base as [|item kb IH]; intros docs; cbn [ingest_loop].
  - split; [constructor | eauto].
  - destruct (flatten item) as [text|e] eqn:Hf; cbn.
    + rewrite IH, Forall_cons. split; [|tauto].
      intros H. split; [|exact H]. now apply (flatten_ok_not_lacking _ text).
    + split.
      * intros [out Hout]. discriminate.
      * intros [Hnot _]%Forall_cons. apply flatten_raise_lacking in Hf.
        contradiction.
Qed.

(** X1: the compiler produces a document sequence exactly when no record
    of the knowledge base lacks a field that its template requires. *)
Theorem ingest_succeeds_iff knowledge_base :
  (∃ documents, ingest knowledge_base = Ok documents)
  ↔ Forall (fun item => ¬ lacks_required item) knowledge_base.
Proof. apply ingest_loop_ok_iff. Qed.

(** The loop started from [documents] appends what it produces from the
    empty list. *)
Lemma ingest_loop_acc knowledge_base documents :
  ingest_loop knowledge_base documents
  = (out ← ingest_loop knowledge_base []; Ok (documents ++ out)).
Proof.
  revert documents.
  induction knowledge_base as [|item kb IH]; intros docs; cbn [ingest_loop].
  - cbn. now rewrite app_nil_r.
  - destruct (flatten item) as [[text|]|e]; cbn; [| |reflexivity].
    + rewrite (IH (docs ++ [text])), (IH [text]).
      destruct (ingest_loop kb []); cbn; [|reflexivity].
      now rewrite <- app_assoc.
    + apply IH.
Qed.

Lemma ingest_loop_app (kb1 kb2 : list item) documents :
  ingest_loop (kb1 ++ kb2) documents
  = (out ← ingest_loop kb1 documents; ingest_loop kb2 out).
Proof.
  revert documents. induction kb1 as [|item kb IH]; intros docs.
  - reflexivity.
  - cbn [app ingest_loop]. destruct (flatten item); cbn; [apply IH | reflexivity].
Qed.

(** X2: compiling two knowledge bases one after the other is compiling
    each and joining the document sequences; if either fails, so does the
    whole. *)
Theorem ingest_app (kb1 kb2 : list item) :
  ingest (kb1 ++ kb2)
  = (docs1 ← ingest kb1; docs2 ← ingest kb2; Ok (docs1 ++ docs2)).
Proof.
  unfold ingest. rewrite ingest_loop_app.
  destruct (ingest_loop kb1 []) as [docs1|e]; cbn; [|reflexivity].
  apply ingest_loop_acc.
Qed.

Lemma ingest_cons item knowledge_base :
  ingest (item :: knowledge_base)
  = (text ← flatten item;
     rest ← ingest knowledge_base;
     Ok (match text with Some text => text :: rest | None => rest end)).
Proof.
  unfold ingest. cbn [ingest_loop].
  destruct (flatten item) as [[text|]|e]; cbn; [| |reflexivity].
  - rewrite ingest_loop_acc. reflexivity.
  - now destruct (ingest_loop knowledge_base []).
Qed.

Lemma flatten_some_recognized item (text : string) :
  flatten item = Ok (Some text) -> recognized item = true.
Proof.
  unfold flatten, recognized.
  destruct (decide (item !! "type" = Some "general_topic")) as [Hg|Hg].
  - intros _. now rewrite (bool_decide_eq_true_2 _ Hg).
  - destruct (decide (item !! "type" = Some "letter")) as [Hl|Hl];
      [|discriminate].
    intros _. rewrite (bool_decide_eq_true_2 _ Hl). apply orb_true_r.
Qed.

Lemma flatten_none_unrecognized item :
  flatten item = Ok None -> recognized item = false.
Proof.
  unfold flatten, recognized, dict_getitem.
  destruct (decide (item !! "type" = Some "general_topic")) as [Hg|Hg].
  - destruct (item !! "topic"); cbn; [|discriminate].
    destruct (item !! "content"); discriminate.
  - destruct (decide (item !! "type" = Some "letter")) as [Hl|Hl].
    + destruct (item !! "name"); cbn; [|discriminate].
      destruct (item !! "info"); discriminate.
    + intros _. now rewrite !bool_decide_eq_false_2.
Qed.

(** X3: a successful compilation yields one document per record of a
    recognised type, in the order of the knowledge base: records of another
    type are skipped, and when every record is recognised, document [i] is
    the text of record [i]. *)
Theorem ingest_one_document_per_record knowledge_base documents :
  ingest knowledge_base = Ok documents ->
  length documents
  = length (filter (fun item => recognized item = true) knowledge_base)
  ∧ (Forall (fun item => recognized item = true) knowledge_base ->
     Forall2 (fun item doc => flatten item = Ok (Some doc))
       knowledge_base documents).
Proof.
  revert documents.
  induction knowledge_base as [|item kb IH]; intros docs.
  - intros [= <-]. split; [reflexivity | constructor].
  - rewrite ingest_cons.
    destruct (flatten item) as [[text|]|e] eqn:Hf; cbn -[filter];
      [| |discriminate].
    + destruct (ingest kb) as [rest|e]; cbn -[filter]; [|discriminate].
      intros [= <-]. destruct (IH rest eq_refl) as [Hlen Hall].
      rewrite filter_cons_True by now apply (flatten_some_recognized _ text).
      split; [cbn; now rewrite Hlen|].
      intros [_ Hkb]%Forall_cons. constructor; auto.
    + destruct (ingest kb) as [rest|e]; cbn -[filter]; [|discriminate].
      intros [= <-]. destruct (IH rest eq_refl) as [Hlen Hall].
      pose proof (flatten_none_unrecognized _ Hf) as Hun.
      rewrite filter_cons_False by (rewrite Hun; discriminate).
      split; [exact Hlen|].
      intros [Hrec _]%Forall_cons. congruence.
Qed.

End CompilerBehaviour.

Lemma ingest_one_document_per_record_witness :
  length demo_documents
  = length (filter (fun item => recognized item = true)
              [topic_item; ∅; alif_item; ca_item]).
Proof.
  apply (ingest_one_document_per_record [topic_item; ∅; alif_item; ca_item]
           demo_documents).
  vm_compute. reflexivity.
Defined.

(** ** Where the documents come from *)

Section Origin.

Implicit Types (item : item) (knowledge_base : list item)
  (documents : list string).

(** The text of a record begins with the label of its variant. *)
Lemma flatten_prefix item (doc : string) :
  flatten item = Ok (Some doc) ->
  (item !! "type" = Some "general_topic" ∧ startswith doc "Topic: " = true)
  ∨ (item !! "type" = Some "letter" ∧ startswith doc "Letter name: " = true).
Proof.
  unfold flatten, dict_getitem.
  destruct (decide (item !! "type" = Some "general_topic")) as [Hg|Hg].
  - destruct (item !! "topic"); cbn; [|discriminate].
    destruct (item !! "content"); cbn; [|discriminate].
    intros [= <-]. left. split; [exact Hg | apply startswith_app].
  - destruct (decide (item !! "type" = Some "letter")) as [Hl|Hl];
      [|discriminate].
    destruct (item !! "name"); cbn; [|discriminate].
    destruct (item !! "info"); cbn; [|discriminate].
    intros [= <-]. right. split; [exact Hl | apply startswith_app].
Qed.

Lemma startswith_trans (s p q : string) :
  startswith s p = true -> startswith p q = true -> startswith s q = true.
Proof.
  revert s p. induction q as [|c q IH]; intros s p Hsp Hpq.
  - apply startswith_nil.
  - destruct p as [|b p]; [discriminate|]. destruct s as [|a s]; [discriminate|].
    cbn in Hsp, Hpq |- *.
    destruct (Ascii.eqb c b) eqn:Hcb; [|discriminate].
    apply Ascii.eqb_eq in Hcb as ->.
    destruct (Ascii.eqb b a); [|discriminate]. eauto.
Qed.

Lemma letter_text_is_letter_doc (doc : string) :
  startswith doc "Letter name: " = true -> is_letter_doc doc = true.
Proof.
  intros H. unfold is_letter_doc.
  now apply (startswith_trans doc "Letter name: " "Letter name:").
Qed.

Lemma topic_text_is_no_letter_doc (doc : string) :
  startswith doc "Topic: " = true -> is_letter_doc doc = false.
Proof.
  unfold is_letter_doc. destruct doc as [|c doc]; cbn [startswith]; [easy|].
  destruct (Ascii.eqb "T" c) eqn:Hc; [|easy].
  apply Ascii.eqb_eq in Hc as <-. reflexivity.
Qed.

Lemma ingest_documents_origin knowledge_base documents (doc : string) :
  ingest knowledge_base = Ok documents ->
  doc ∈ documents
  ↔ ∃ item, item ∈ knowledge_base ∧ flatten item = Ok (Some doc).
Proof.
  revert documents.
  induction knowledge_base as [|item kb IH]; intros docs.
  - intros [= <-]. split; [now intros ?%elem_of_nil|].
    now intros (item & ?%elem_of_nil & _).
  - rewrite ingest_cons.
    destruct (flatten item) as [[text|]|e] eqn:Hf; cbn; [| |discriminate];
      destruct (ingest kb) as [rest|e]; cbn; try discriminate;
      intros [= <-]; specialize (IH rest eq_refl).
    + rewrite elem_of_cons, IH. split.
      * intros [-> | (it & Hin & Hit)].
        -- exists item. split; [apply list_elem_of_here | exact Hf].
        -- exists it. split; [now apply list_elem_of_further | exact Hit].
      * intros (it & [-> | Hin]%elem_of_cons & Hit).
        -- left. congruence.
        -- right. eauto.
    + rewrite IH. split.
      * intros (it & Hin & Hit). exists it.
        split; [now apply list_elem_of_further | exact Hit].
      * intros (it & [-> | Hin]%elem_of_cons & Hit); [congruence | eauto].
Qed.

(** X4: every compiled document is the text of some record of the
    knowledge base, is not empty, and begins with the letter label exactly
    when that record is a letter; a topic document is never taken for a
    letter document. *)
Theorem compiled_document_origin knowledge_base documents (doc : string) :
  ingest knowledge_base = Ok documents ->
  doc ∈ documents ->
  doc ≠ EmptyString
  ∧ ∃ item,
      item ∈ knowledge_base ∧ flatten item = Ok (Some doc)
      ∧ (is_letter_doc doc = true ↔ item !! "type" = Some "letter").
Proof.
  intros Hok Hin.
  apply (ingest_documents_origin _ _ _ Hok) in Hin as (item & Hin & Hf).
  destruct (flatten_prefix _ _ Hf) as [[Ht Hp] | [Ht Hp]].
  - split; [now destruct doc|]. exists item. repeat split; auto.
    + rewrite (topic_text_is_no_letter_doc _ Hp). discriminate.
    + intros Hl. congruence.
  - split; [now destruct doc|]. exists item. repeat split; auto.
    intros _. now apply letter_text_is_letter_doc.
Qed.

(** X5: every entry of the exact-match index built from a compiled document
    sequence comes from a letter record: its document is the text of that
    record and its key is the name extracted from that text. *)
Theorem index_entries_come_from_letters knowledge_base documents
    (key doc : string) :
  ingest knowledge_base = Ok documents ->
  document_lookup documents !! key = Some doc ->
  ∃ item,
    item ∈ knowledge_base ∧ item !! "type" = Some "letter"
    ∧ flatten item = Ok (Some doc) ∧ letter_name doc = Ok key.
Proof.
  intros Hok (Hin & Hp & Hkey)%document_lookup_entries.
  apply (ingest_documents_origin _ _ _ Hok) in Hin as (item & Hin & Hf).
  exists item. repeat split; auto.
  destruct (flatten_prefix _ _ Hf) as [[Ht Hq] | [Ht Hq]]; [|exact Ht].
  apply topic_text_is_no_letter_doc in Hq. unfold is_letter_doc in Hq.
  congruence.
Qed.

End Origin.

Lemma compiled_document_origin_witness :
  ca_doc ≠ EmptyString
  ∧ ∃ item,
      item ∈ [topic_item; alif_item; ca_item] ∧ flatten item = Ok (Some ca_doc)
      ∧ (is_letter_doc ca_doc = true ↔ item !! "type" = Some "letter").
Proof.
  apply (compiled_document_origin [topic_item; alif_item; ca_item]
           demo_documents ca_doc).
  - vm_compute. reflexivity.
  - vm_compute. apply list_elem_of_further, list_elem_of_further,
      list_elem_of_here.
Defined.

Lemma index_entries_come_from_letters_witness :
  ∃ item,
    item ∈ [topic_item; alif_item; ca_item] ∧ item !! "type" = Some "letter"
    ∧ flatten item = Ok (Some alif_doc) ∧ letter_name alif_doc = Ok "alif".
Proof.
  apply (index_entries_come_from_letters [topic_item; alif_item; ca_item]
           demo_documents "alif" alif_doc).
  - vm_compute. reflexivity.
  - vm_compute. reflexivity.
Defined.

(** ** Further properties of the exact-match index *)

Lemma lower_char_idem (c : ascii) : lower_char (lower_char c) = lower_char c.
Proof. destruct c as [[] [] [] [] [] [] [] []]; reflexivity. Qed.

Lemma lower_idem (s : string) : lower (lower s) = lower s.
Proof.
  induction s as [|c s IH]; cbn [lower]; [reflexivity|].
  now rewrite lower_char_idem, IH.
Qed.

Lemma rstrip_idem (s : string) : rstrip (rstrip s) = rstrip s.
Proof.
  induction s as [|c s IH]; cbn [rstrip]; [reflexivity|].
  destruct (rstrip s) as [|d r] eqn:Hr.
  - destruct (isspace c) eqn:Hc; cbn [rstrip]; [reflexivity | now rewrite Hc].
  - cbn [rstrip]. cbn [rstrip] in IH. now rewrite IH.
Qed.

(** What [lstrip] leaves is empty or begins with a character that is not
    whitespace. *)
Lemma lstrip_head (s : string) :
  lstrip s = EmptyString
  ∨ ∃ c rest, lstrip s = String c rest ∧ isspace c = false.
Proof.
  induction s as [|c s IH]; cbn [lstrip]; [now left|].
  destruct (isspace c) eqn:Hc; [exact IH | right; eauto].
Qed.

Lemma rstrip_keeps_head (c : ascii) (s : string) :
  isspace c = false -> ∃ rest, rstrip (String c s) = String c rest.
Proof.
  intros Hc. cbn [rstrip]. destruct (rstrip s); [rewrite Hc|]; eauto.
Qed.

Lemma strip_idem (s : string) : strip (strip s) = strip s.
Proof.
  unfold strip.
  destruct (lstrip_head s) as [Hs | (c & rest & Hs & Hc)]; rewrite Hs;
    [reflexivity|].
  destruct (rstrip_keeps_head c rest Hc) as [rest' Hrest].
  rewrite Hrest. cbn [lstrip]. rewrite Hc, <- Hrest.
  apply rstrip_idem.
Qed.

(** The startup name of any text is a fixed point of the query
    normalisation. *)
Lemma letter_name_normalized (doc key : string) :
  letter_name doc = Ok key -> strip (lower key) = key.
Proof.
  unfold letter_name. destruct (list_getitem _ 0) as [head|e]; cbn; [|easy].
  intros [= <-]. now rewrite lower_idem, <- lower_strip, strip_idem.
Qed.

(** The extraction of the name never raises: [split] yields at least one
    field. *)
Lemma letter_name_total (doc : string) : ∃ name, letter_name doc = Ok name.
Proof.
  unfold letter_name. destruct (split_head doc ".") as [fields ->].
  rewrite list_getitem_head. cbn. eauto.
Qed.

Section IndexBehaviour.

Implicit Types (documents : list string) (document_lookup : gmap string string).

Lemma document_lookup_loop_app (docs1 docs2 : list string) document_lookup :
  document_lookup_loop (docs1 ++ docs2) document_lookup
  = document_lookup_loop docs2 (document_lookup_loop docs1 document_lookup).
Proof.
  revert document_lookup. induction docs1 as [|d rest IH]; intros acc;
    [reflexivity|].
  cbn [app document_lookup_loop]. apply IH.
Qed.

(** Documents with another key leave the entry of a key as it is. *)
Lemma document_lookup_loop_other documents document_lookup (key : string) :
  (∀ d, d ∈ documents -> is_letter_doc d = true -> letter_name d ≠ Ok key) ->
  document_lookup_loop documents document_lookup !! key = document_lookup !! key.
Proof.
  revert document_lookup.
  induction documents as [|d rest IH]; intros acc Hother;
    cbn [document_lookup_loop]; [reflexivity|].
  rewrite IH by (intros d' Hd'; apply Hother; now apply list_elem_of_further).
  pose proof (Hother d (list_elem_of_here _ _)) as Hd.
  unfold is_letter_doc in Hd.
  destruct (startswith d "Letter name:"); [|reflexivity].
  destruct (letter_name d) as [name|e]; [|reflexivity].
  apply lookup_insert_ne. intros ->. now apply Hd.
Qed.

(** X6: every key of the exact-match index is already in normal form
    (lower case, no whitespace at either end), so a query equal to a key
    probes the index with that very key. *)
Theorem index_keys_are_normalized documents (key doc : string) :
  document_lookup documents !! key = Some doc ->
  strip (lower key) = key.
Proof.
  intros (_ & _ & Hkey)%document_lookup_entries.
  exact (letter_name_normalized doc key Hkey).
Qed.

(** X7: of the loaded letter documents that share a key, the index keeps
    the one that comes last in the sequence. *)
Theorem index_keeps_the_last (earlier later : list string) (doc key : string) :
  is_letter_doc doc = true ->
  letter_name doc = Ok key ->
  (∀ d, d ∈ later -> is_letter_doc d = true -> letter_name d ≠ Ok key) ->
  document_lookup (earlier ++ doc :: later) !! key = Some doc.
Proof.
  intros Hp Hkey Hlater. unfold document_lookup.
  rewrite document_lookup_loop_app. cbn [document_lookup_loop].
  rewrite (document_lookup_loop_other later _ key Hlater).
  unfold is_letter_doc in Hp. rewrite Hp, Hkey. apply lookup_insert_eq.
Qed.

Lemma document_lookup_loop_covers documents document_lookup (key : string) :
  (∃ doc, doc ∈ documents ∧ is_letter_doc doc = true ∧ letter_name doc = Ok key)
  ∨ is_Some (document_lookup !! key) ->
  is_Some (document_lookup_loop documents document_lookup !! key).
Proof.
  revert document_lookup.
  induction documents as [|d rest IH]; intros acc; cbn [document_lookup_loop].
  - intros [(doc & Hin%elem_of_nil & _) | Hacc]; [contradiction | exact Hacc].
  - intros [(doc & [-> | Hin]%elem_of_cons & Hp & Hkey) | Hacc]; apply IH.
    + right. unfold is_letter_doc in Hp. rewrite Hp, Hkey.
      rewrite lookup_insert_eq. eauto.
    + left. eauto.
    + right. destruct (startswith d "Letter name:"); [|exact Hacc].
      destruct (letter_name d) as [name|e]; [|exact Hacc].
      destruct (decide (name = key)) as [->|Hne].
      * rewrite lookup_insert_eq. eauto.
      * now rewrite lookup_insert_ne.
Qed.

(** X8: no loaded letter document is skipped at startup: the extraction of
    its name never raises, and the index has an entry under that name,
    holding a loaded letter document of the same name. *)
Theorem index_covers_every_letter_document documents (doc : string) :
  doc ∈ documents -> is_letter_doc doc = true ->
  ∃ key filed,
    letter_name doc = Ok key
    ∧ document_lookup documents !! key = Some filed
    ∧ filed ∈ documents ∧ is_letter_doc filed = true
    ∧ letter_name filed = Ok key.
Proof.
  intros Hin Hp. destruct (letter_name_total doc) as [key Hkey].
  destruct (document_lookup_loop_covers documents ∅ key) as [filed Hfiled].
  { left. eauto. }
  exists key, filed. split; [exact Hkey|]. split; [exact Hfiled|].
  now apply document_lookup_entries.
Qed.

Lemma document_lookup_loop_size documents document_lookup :
  (size (document_lookup_loop documents document_lookup)
   ≤ size document_lookup
     + length (filter (fun d => is_letter_doc d = true) documents))%nat.
Proof.
  revert document_lookup.
  induction documents as [|d rest IH]; intros acc; cbn [document_lookup_loop].
  - cbn. lia.
  - etransitivity; [apply IH|].
    destruct (startswith d "Letter name:") eqn:Hp.
    + rewrite (filter_cons_True _ d) by exact Hp. cbn [length].
      destruct (letter_name d) as [name|e]; [|lia].
      rewrite map_size_insert. destruct (acc !! name); cbn; lia.
    + rewrite (filter_cons_False _ d)
        by (unfold is_letter_doc; rewrite Hp; easy).
      lia.
Qed.

(** X9: the index has at most one entry per loaded letter document, and
    none when no document begins with the letter label. *)
Theorem index_size_bound documents :
  (size (document_lookup documents)
   ≤ length (filter (fun d => is_letter_doc d = true) documents))%nat.
Proof.
  unfold document_lookup.
  etransitivity; [apply document_lookup_loop_size|].
  rewrite map_size_empty. lia.
Qed.

End IndexBehaviour.

Lemma index_keys_are_normalized_witness : strip (lower "ca final") = "ca final".
Proof.
  apply (index_keys_are_normalized demo_documents "ca final" ca_doc).
  vm_compute. reflexivity.
Defined.

Lemma index_keeps_the_last_witness :
  document_lookup ([topic_doc; alif_doc] ++ alif_again_doc :: [ca_doc]) !! "alif"
  = Some alif_again_doc.
Proof.
  apply (index_keeps_the_last [topic_doc; alif_doc] [ca_doc] alif_again_doc
           "alif").
  - reflexivity.
  - vm_compute. reflexivity.
  - intros d Hd%list_elem_of_singleton. subst d. intros _.
    vm_compute. discriminate.
Defined.

Lemma index_covers_every_letter_document_witness :
  ∃ key filed,
    letter_name alif_doc = Ok key
    ∧ document_lookup [alif_doc; alif_again_doc] !! key = Some filed
    ∧ filed ∈ [alif_doc; alif_again_doc] ∧ is_letter_doc filed = true
    ∧ letter_name filed = Ok key.
Proof.
  apply (index_covers_every_letter_document [alif_doc; alif_again_doc] alif_doc).
  - apply list_elem_of_here.
  - reflexivity.
Defined.

(** ** Further properties of retrieval *)

(** A Python subscript on a list, by the position it denotes. *)
Lemma list_getitem_position {A} (l : list A) (i : Z) :
  match position (length l) i with
  | Some k => ∃ x, l !! k = Some x ∧ list_getitem l i = Ok x
  | None => list_getitem l i = Raise (IndexError "list index out of range")
  end.
Proof.
  unfold position, list_getitem, seq_getitem. cbn zeta.
  set (n := Z.of_nat (length l)).
  assert (∀ j, 0 <= j < n -> ∃ x, l !! Z.to_nat j = Some x) as Hget.
  { intros j Hj. apply lookup_lt_is_Some_2. unfold n in Hj. lia. }
  destruct (Z.leb_spec 0 i) as [Hnonneg|Hneg].
  - assert ((i <? 0) = false) as -> by (apply Z.ltb_ge; lia).
    destruct (Z.ltb_spec i n) as [Hlt|Hge]; cbn [andb].
    + assert ((i <? 0) = false) as -> by (apply Z.ltb_ge; lia).
      assert ((n <=? i) = false) as -> by (apply Z.leb_gt; lia).
      cbn [orb]. destruct (Hget i) as [x Hx]; [lia|].
      exists x. now rewrite Hx.
    + rewrite andb_false_r.
      assert ((i <? 0) = false) as -> by (apply Z.ltb_ge; lia).
      assert ((n <=? i) = true) as -> by (apply Z.leb_le; lia).
      reflexivity.
  - assert ((i <? 0) = true) as -> by (apply Z.ltb_lt; lia).
    cbn [andb]. rewrite andb_true_r.
    destruct (Z.leb_spec (- n) i) as [Hin|Hout].
    + assert ((i + n <? 0) = false) as -> by (apply Z.ltb_ge; lia).
      assert ((n <=? i + n) = false) as -> by (apply Z.leb_gt; lia).
      cbn [orb]. destruct (Hget (i + n)) as [x Hx]; [lia|].
      exists x. now rewrite Hx.
    + assert ((i + n <? 0) = true) as -> by (apply Z.ltb_lt; lia).
      reflexivity.
Qed.

Lemma list_getitem_elem_of {A} (l : list A) (i : Z) (x : A) :
  list_getitem l i = Ok x -> x ∈ l.
Proof.
  pose proof (list_getitem_position l i) as H.
  destruct (position (length l) i) as [k|].
  - destruct H as (y & Hy & ->). intros [= <-].
    apply list_elem_of_lookup. eauto.
  - rewrite H. discriminate.
Qed.

Lemma list_getitem_raise {A} (l : list A) (i : Z) (e : exn) :
  list_getitem l i = Raise e ->
  position (length l) i = None ∧ e = IndexError "list index out of range".
Proof.
  pose proof (list_getitem_position l i) as H.
  destruct (position (length l) i) as [k|].
  - destruct H as (y & Hy & ->). discriminate.
  - rewrite H. intros [= <-]. auto.
Qed.

Section RetrievalBehaviour.

Variable w : world.

Implicit Types (data : request) (p : payload) (user_query doc : string).

(** X10: the exact-match tier ignores case and surrounding whitespace: a
    search term that differs from a term with an exact match only in the
    case of its letters and in whitespace padding runs the same retrieval,
    one dictionary probe that yields the same document. *)
Theorem exact_match_ignores_case_and_padding (l a b r doc : string) :
  all_space l = true -> all_space r = true -> lower b = lower a ->
  document_lookup (documents w) !! strip (lower a) = Some doc ->
  retrieve w (l +:+ b +:+ r) = retrieve w a
  ∧ retrieve w a = Run [Lookup (strip (lower a))] (Ok (ExactMatch doc)).
Proof.
  intros Hl Hr Hcase Hhit.
  pose proof (normalized_padding l r a b Hl Hr Hcase) as Hnorm.
  rewrite <- lower_strip in Hhit.
  rewrite (retrieve_hit w a doc) by now rewrite <- lower_strip.
  rewrite (retrieve_hit w (l +:+ b +:+ r) doc) by now rewrite Hnorm.
  rewrite Hnorm, lower_strip. auto.
Qed.

(** X11: when the request passes validation, the dictionary probe
    misses, the nearest neighbour is within the threshold and its id denotes
    no position of [documents], the subscript [documents[id]] raises
    [IndexError] and nothing catches it: [chat] ends with that exception
    after the probe, the embedding and the search, and before any POST. *)
Theorem unknown_id_raises_index_error data user_query :
  query data = Some user_query -> user_query ≠ EmptyString ->
  let search := search_query (context data) user_query in
  document_lookup (documents w) !! strip (lower search) = None ->
  let found := index_search w (retriever_encode w search) in
  (fst found <=? RELEVANCE_THRESHOLD)%float = true ->
  position (length (documents w)) (snd found) = None ->
  chat w data
  = Run [Lookup (strip (lower search)); Encode search;
         Search (retriever_encode w search)]
      (Raise (IndexError "list index out of range")).
Proof.
  intros Hq Hne search Hmiss found Hle Hpos.
  rewrite (chat_run w data user_query Hq Hne). cbn zeta. fold search.
  rewrite (retrieve_miss w search Hmiss). unfold semantic_run.
  cbn [returned trace]. fold found. rewrite Hle.
  pose proof (list_getitem_position (documents w) (snd found)) as H.
  rewrite Hpos in H. now rewrite H.
Qed.

(** X12: when the probe misses and the nearest neighbour is within the
    threshold, the request makes the three retrieval calls and one POST;
    the payload is the grounded one built from the neighbour document,
    unless that document is the empty string, which counts as no context
    and gives the guarded-fallback payload. *)
Theorem semantic_hit_payload data user_query doc :
  query data = Some user_query -> user_query ≠ EmptyString ->
  let search := search_query (context data) user_query in
  document_lookup (documents w) !! strip (lower search) = None ->
  let found := index_search w (retriever_encode w search) in
  (fst found <=? RELEVANCE_THRESHOLD)%float = true ->
  list_getitem (documents w) (snd found) = Ok doc ->
  trace (chat w data)
  = [Lookup (strip (lower search)); Encode search;
     Search (retriever_encode w search);
     Post (if decide (doc = EmptyString)
           then fallback_payload (history data) user_query
           else grounded_payload doc (history data) user_query)].
Proof.
  intros Hq Hne search Hmiss found Hle Hdoc.
  rewrite (chat_run w data user_query Hq Hne). cbn zeta. fold search.
  rewrite (retrieve_miss w search Hmiss). unfold semantic_run.
  cbn [returned trace]. fold found. rewrite Hle, Hdoc. cbn.
  destruct doc; reflexivity.
Qed.

(** X13: the id that the similarity index returns is used as a Python
    subscript: within the threshold, an id from 0 to n-1 selects that
    document and an id from -n to -1 selects the document counted from the
    end, so the id -1 selects the last document. *)
Theorem semantic_match_position (search : string) (k : nat) :
  document_lookup (documents w) !! strip (lower search) = None ->
  let found := index_search w (retriever_encode w search) in
  (fst found <=? RELEVANCE_THRESHOLD)%float = true ->
  position (length (documents w)) (snd found) = Some k ->
  (k < length (documents w))%nat
  ∧ (0 <= snd found -> k = Z.to_nat (snd found))
  ∧ (snd found < 0 ->
     k = Z.to_nat (snd found + Z.of_nat (length (documents w))))
  ∧ ∃ doc, documents w !! k = Some doc
           ∧ returned (retrieve w search) = Ok (SemanticMatch doc (fst found)).
Proof.
  intros Hmiss found Hle Hpos.
  pose proof (list_getitem_position (documents w) (snd found)) as Hget.
  rewrite Hpos in Hget. destruct Hget as (doc & Hk & Hget).
  split; [now apply lookup_lt_Some in Hk|].
  assert ((0 <= snd found -> k = Z.to_nat (snd found))
          ∧ (snd found < 0 ->
             k = Z.to_nat (snd found + Z.of_nat (length (documents w)))))
    as [H1 H2].
  { unfold position in Hpos.
    destruct (Z.leb_spec 0 (snd found)) as [Hnonneg|Hneg]; cbn [andb] in Hpos.
    - destruct (snd found <? Z.of_nat (length (documents w))).
      + injection Hpos as <-. split; [reflexivity | lia].
      + assert ((snd found <? 0) = false) as Hlt by (apply Z.ltb_ge; lia).
        rewrite Hlt, andb_false_r in Hpos. discriminate.
    - destruct ((- Z.of_nat (length (documents w)) <=? snd found)
                && (snd found <? 0)); [|discriminate].
      injection Hpos as <-. split; [lia | reflexivity]. }
  split; [exact H1|]. split; [exact H2|].
  exists doc. split; [exact Hk|].
  rewrite (retrieve_miss w search Hmiss). unfold semantic_run. cbn [returned].
  fold found. now rewrite Hle, Hget.
Qed.

(** X14: retrieval never makes up context: the document of an exact or
    semantic match is one of the loaded documents, and so is the context of
    every grounded payload that [chat] posts. *)
Theorem retrieved_context_is_loaded :
  (∀ (search : string) (outcome : RetrievalOutcome) doc,
     returned (retrieve w search) = Ok outcome ->
     retrieved_context outcome = Some doc -> doc ∈ documents w)
  ∧ (∀ data p,
       Post p ∈ trace (chat w data) ->
       ∃ user_query,
         query data = Some user_query
         ∧ (p = fallback_payload (history data) user_query
            ∨ ∃ doc, doc ∈ documents w
                     ∧ p = grounded_payload doc (history data) user_query)).
Proof.
  assert (∀ (search : string) (outcome : RetrievalOutcome) doc,
            returned (retrieve w search) = Ok outcome ->
            retrieved_context outcome = Some doc -> doc ∈ documents w) as Hloaded.
  { intros search outcome doc.
    destruct (document_lookup (documents w) !! strip (lower search))
      as [hit|] eqn:Hl.
    - rewrite (retrieve_hit w search hit Hl). intros [= <-] [= <-].
      now apply document_lookup_entries in Hl.
    - rewrite (retrieve_miss w search Hl). unfold semantic_run. cbn [returned].
      destruct (fst _ <=? RELEVANCE_THRESHOLD)%float.
      + destruct (list_getitem _ _) as [d|e] eqn:Hget; [|discriminate].
        intros [= <-] [= <-]. now apply list_getitem_elem_of in Hget.
      + intros [= <-]. discriminate. }
  split; [exact Hloaded|].
  intros data p Hin.
  destruct (query data) as [[|c q]|] eqn:Hq;
    [revert Hin; unfold chat; rewrite Hq; now intros ?%elem_of_nil | |
     revert Hin; unfold chat; rewrite Hq; now intros ?%elem_of_nil].
  destruct (chat_posted w data (String c q) p Hq ltac:(discriminate) Hin)
    as (outcome & Hret & Hp).
  exists (String c q). split; [reflexivity|].
  rewrite Hp. unfold prepare_payload.
  destruct (retrieved_context outcome) as [[|c' doc]|] eqn:Hctx; auto.
  right. exists (String c' doc). split; [|reflexivity].
  exact (Hloaded _ outcome _ Hret Hctx).
Qed.

End RetrievalBehaviour.

Lemma exact_match_ignores_case_and_padding_witness :
  retrieve near_world ("  " +:+ "CA Final" +:+ " ") = retrieve near_world "ca final".
Proof.
  apply (exact_match_ignores_case_and_padding near_world "  " "ca final"
           "CA Final" " " ca_doc); vm_compute; reflexivity.
Defined.

Lemma unknown_id_raises_index_error_witness :
  chat (World [alif_doc] (fun _ => [0%float]) (fun _ => (0.25%float, 1))
          (fun _ => PostReturned (ok_response "Hi")))
    (Request (Some "script") [] None)
  = Run [Lookup "script"; Encode "script"; Search [0%float]]
      (Raise (IndexError "list index out of range")).
Proof.
  apply (unknown_id_raises_index_error
           (World [alif_doc] (fun _ => [0%float]) (fun _ => (0.25%float, 1))
              (fun _ => PostReturned (ok_response "Hi")))
           (Request (Some "script") [] None) "script");
    [reflexivity | discriminate | vm_compute; reflexivity..].
Defined.

Lemma semantic_hit_payload_witness :
  trace (chat blank_doc_world (Request (Some "script") [] None))
  = [Lookup "script"; Encode "script"; Search [0%float];
     Post (fallback_payload [] "script")].
Proof.
  apply (semantic_hit_payload blank_doc_world (Request (Some "script") [] None)
           "script" EmptyString);
    [reflexivity | discriminate | vm_compute; reflexivity..].
Defined.

Lemma semantic_match_position_witness :
  ∃ doc, demo_documents !! 2%nat = Some doc
         ∧ returned (retrieve last_world "script")
           = Ok (SemanticMatch doc 0.25%float).
Proof.
  apply (semantic_match_position last_world "script" 2);
    vm_compute; reflexivity.
Defined.

(** ** Further properties of the handlers and of generation *)

(** What [generated] yields: the stripped content with status 200, or the
    text of an exception with status 500. *)
Lemma generated_cases (outcome : post_outcome) :
  (∃ text, generated outcome = Reply (ResponseJson (strip text)) 200)
  ∨ (∃ e, generated outcome = Reply (ErrorJson (str e)) 500).
Proof.
  unfold generated. destruct outcome as [e|r]; [eauto|].
  destruct (read_response r) as [rep|e] eqn:Hr; [|eauto].
  apply read_response_ok in Hr as (_ & v & text & _ & _ & ->). eauto.
Qed.

(** A response that cannot be read is one of the failures. *)
Lemma read_response_raise_failure (r : response) (e : exn) :
  read_response r = Raise e -> delegate_failure (PostReturned r).
Proof.
  intros Hr.
  destruct (decide (400 <= status_code r < 600)) as [Hs|Hs];
    [now apply error_status|].
  destruct (json_body r) as [v|e'] eqn:Hv;
    [|now apply (undecodable_body r e')].
  apply (unexpected_shape r v Hv). intros text Hshape.
  pose proof (generated_success r v text Hs Hv Hshape) as Hok.
  unfold generated in Hok. rewrite Hr in Hok. discriminate.
Qed.

Section HandlerBehaviour.

Variable w : world.

Implicit Types (data : request) (p : payload) (r : response).

(** X15: a request to [chat] makes at most one POST, and makes it after
    all its retrieval calls: there is no second attempt, whatever the first
    one gives. *)
Theorem chat_posts_at_most_once data :
  ∃ (calls posts : list event),
    trace (chat w data) = calls ++ posts
    ∧ Forall (fun ev => is_retrieval ev = true) calls
    ∧ (posts = [] ∨ ∃ p, posts = [Post p])
    ∧ (length (filter (fun ev => is_post ev = true) (trace (chat w data))) ≤ 1)%nat.
Proof.
  assert (∀ calls, Forall (fun ev => is_retrieval ev = true) calls ->
            filter (fun ev => is_post ev = true) calls = []) as Hnone.
  { induction 1 as [|ev calls Hev _ IH]; [reflexivity|].
    rewrite filter_cons_False; [exact IH|]. destruct ev; easy. }
  destruct (query data) as [[|c q]|] eqn:Hq.
  - exists [], []. unfold chat. rewrite Hq. cbn.
    split; [reflexivity|]. split; [constructor|]. split; [now left | lia].
  - rewrite (chat_run w data (String c q) Hq) by discriminate. cbn zeta.
    pose proof (retrieve_trace_retrieval w
                  (search_query (context data) (String c q))) as Hcalls.
    destruct (returned (retrieve w _)) as [outcome|e]; cbn [trace].
    + eexists _, [Post _]. split; [reflexivity|]. split; [exact Hcalls|].
      split; [eauto|]. rewrite filter_app, (Hnone _ Hcalls).
      rewrite filter_cons_True by reflexivity. rewrite filter_nil. cbn. lia.
    + eexists _, []. rewrite app_nil_r. split; [reflexivity|].
      split; [exact Hcalls|]. split; [now left|].
      rewrite (Hnone _ Hcalls). cbn. lia.
  - exists [], []. unfold chat. rewrite Hq. cbn.
    split; [reflexivity|]. split; [constructor|]. split; [now left | lia].
Qed.

(** X16: [chat] replies with one of three statuses.  400 goes with the
    message of a missing query and with no call at all; 200 goes with a
    response text that has no whitespace at either end; 500 goes with the
    text of an exception.  An error body never has status 200 and a
    response body never has another. *)
Theorem chat_reply_statuses data (rep : reply) :
  returned (chat w data) = Ok rep ->
  (rep = Reply (ErrorJson "Query not found") 400
   ∧ (query data = None ∨ query data = Some EmptyString)
   ∧ trace (chat w data) = [])
  ∨ (∃ text, rep = Reply (ResponseJson text) 200 ∧ strip text = text
             ∧ ∃ p, Post p ∈ trace (chat w data))
  ∨ (∃ e, rep = Reply (ErrorJson (str e)) 500
          ∧ ∃ p, Post p ∈ trace (chat w data)).
Proof.
  destruct (query data) as [[|c q]|] eqn:Hq.
  - unfold chat. rewrite Hq. intros [= <-]. left. auto.
  - rewrite (chat_run w data (String c q) Hq) by discriminate. cbn zeta.
    destruct (returned (retrieve w _)) as [outcome|e]; [|discriminate].
    cbn [returned trace]. intros [= <-]. right.
    set (p := prepare_payload _ _ _).
    assert (Post p ∈ trace (retrieve w (search_query (context data) (String c q)))
                       ++ [Post p]) as Hin.
    { apply elem_of_app. right. apply list_elem_of_here. }
    destruct (generated_cases (requests_post w p)) as [[text ->] | [e ->]].
    + left. exists (strip text). split; [reflexivity|].
      split; [apply strip_idem | eauto].
    + right. eauto.
  - unfold chat. rewrite Hq. intros [= <-]. left. auto.
Qed.

(** X17: when the endpoint answers a posted payload with a status that is
    no error and a completion of the expected shape, the handler that
    posted it replies with status 200 and the content of the first choice,
    stripped of surrounding whitespace. *)
Theorem well_formed_completion_is_returned p r (v : json) (text : string) :
  requests_post w p = PostReturned r ->
  ¬ (400 <= status_code r < 600) ->
  json_body r = Ok v ->
  expected_shape v text ->
  generate w p = Run [Post p] (Ok (Reply (ResponseJson (strip text)) 200))
  ∧ (∀ data, Post p ∈ trace (chat w data) ->
       returned (chat w data) = Ok (Reply (ResponseJson (strip text)) 200))
  ∧ (∀ data, Post p ∈ trace (chat_creative w data) ->
       returned (chat_creative w data)
       = Ok (Reply (ResponseJson (strip text)) 200)).
Proof.
  intros Hpost Hs Hv Hshape.
  pose proof (generated_success r v text Hs Hv Hshape) as Hgen.
  rewrite <- Hpost in Hgen.
  split; [|split].
  - rewrite generate_run. now rewrite Hgen.
  - intros data Hin.
    destruct (chat_posted_any w data p Hin) as (user_query & _ & Hq & _).
    assert (user_query ≠ EmptyString) as Hne.
    { intros ->. revert Hin. unfold chat. rewrite Hq.
      now intros ?%elem_of_nil. }
    destruct (chat_posted w data user_query p Hq Hne Hin)
      as (outcome & Hret & Hp).
    rewrite (chat_run w data user_query Hq Hne). cbn zeta.
    rewrite Hret. cbn [returned]. now rewrite <- Hp, Hgen.
  - intros data Hin.
    destruct (chat_creative_posted w data p Hin) as (user_query & Hq & Hp).
    assert (user_query ≠ EmptyString) as Hne.
    { intros ->. revert Hin. unfold chat_creative. rewrite Hq.
      now intros ?%elem_of_nil. }
    rewrite (chat_creative_run w data user_query Hq Hne). cbn [returned].
    now rewrite <- Hp, Hgen.
Qed.

(** X18: the generation step replies with status 500 exactly when the
    round trip failed in one of the four ways (the POST raised, error
    status, undecodable body, unexpected shape), and with status 200
    exactly when it did not: the four ways are all the ways. *)
Theorem generate_fails_exactly_on_failure p :
  (delegate_failure (requests_post w p)
   ↔ ∃ e, returned (generate w p) = Ok (Reply (ErrorJson (str e)) 500))
  ∧ (¬ delegate_failure (requests_post w p)
     ↔ ∃ text, returned (generate w p) = Ok (Reply (ResponseJson text) 200)).
Proof.
  rewrite generate_run. cbn [returned].
  assert ((∃ e, Ok (generated (requests_post w p))
                = Ok (Reply (ErrorJson (str e)) 500))
          -> delegate_failure (requests_post w p)) as Hback.
  { intros [e He]. injection He as He. unfold generated in He.
    destruct (requests_post w p) as [e'|r]; [constructor|].
    destruct (read_response r) as [rep|e'] eqn:Hr.
    - apply read_response_ok in Hr as (_ & v & text & _ & _ & ->).
      discriminate.
    - now apply (read_response_raise_failure r e'). }
  split; split.
  - intros [e He]%generated_failure. exists e. now rewrite He.
  - exact Hback.
  - intros Hnot.
    destruct (generated_cases (requests_post w p)) as [[text Ht] | [e He]].
    + exists (strip text). now rewrite Ht.
    + exfalso. apply Hnot, Hback. exists e. now rewrite He.
  - intros [text Ht] [e He]%generated_failure. congruence.
Qed.

(** X19: every payload that [chat] posts names the configured model and
    carries a system turn, then the history of the request unchanged and in
    order, then one user turn: two turns more than the history. *)
Theorem chat_payload_structure data p :
  Post p ∈ trace (chat w data) ->
  model p = MODEL_NAME
  ∧ (∃ (system final : string),
       messages p
       = Message "system" system :: history data ++ [Message "user" final]
       ∧ (system = GROUNDED_SYSTEM_PROMPT ∨ system = FALLBACK_SYSTEM_PROMPT))
  ∧ length (messages p) = (length (history data) + 2)%nat.
Proof.
  intros (user_query & outcome & _ & ->)%chat_posted_any.
  unfold prepare_payload.
  destruct (retrieved_context outcome) as [[|c doc]|].
  - split; [reflexivity|]. split.
    + eexists _, _. split; [reflexivity | now right].
    + cbn. rewrite length_app. cbn. lia.
  - split; [reflexivity|]. split.
    + eexists _, _. split; [reflexivity | now left].
    + cbn. rewrite length_app. cbn. lia.
  - split; [reflexivity|]. split.
    + eexists _, _. split; [reflexivity | now right].
    + cbn. rewrite length_app. cbn. lia.
Qed.

(** X20: [chat_creative] never raises and never calls retrieval: it makes
    no call at all for a missing query (status 400), and otherwise exactly
    one POST, of a payload whose only turn is a user turn holding the
    creative prompt around the query, whatever the history and the context
    of the request. *)
Theorem chat_creative_behaviour data :
  (query data = None ∨ query data = Some EmptyString ->
   chat_creative w data = Run [] (Ok (Reply (ErrorJson "Query not found") 400)))
  ∧ (∀ user_query,
       query data = Some user_query -> user_query ≠ EmptyString ->
       trace (chat_creative w data) = [Post (creative_payload user_query)]
       ∧ messages (creative_payload user_query)
         = [Message "user" (creative_prompt user_query)]
       ∧ ∃ rep, returned (chat_creative w data) = Ok rep
                ∧ (status rep = 200 ∨ status rep = 500))
  ∧ Forall (fun ev => is_retrieval ev = false) (trace (chat_creative w data))
  ∧ ∃ rep, returned (chat_creative w data) = Ok rep.
Proof.
  split; [|split].
  - unfold chat_creative. intros [-> | ->]; reflexivity.
  - intros user_query Hq Hne.
    rewrite (chat_creative_run w data user_query Hq Hne). cbn [trace returned].
    split; [reflexivity|]. split; [reflexivity|].
    eexists. split; [reflexivity|].
    destruct (generated_cases (requests_post w (creative_payload user_query)))
      as [[text ->] | [e ->]]; auto.
  - destruct (query data) as [[|c q]|] eqn:Hq.
    + unfold chat_creative. rewrite Hq. cbn. split; [constructor | eauto].
    + rewrite (chat_creative_run w data (String c q) Hq) by discriminate.
      cbn [trace returned]. split; [repeat constructor | eauto].
    + unfold chat_creative. rewrite Hq. cbn. split; [constructor | eauto].
Qed.

(** X21: a decoded completion that lacks a key is reported by the name of
    that key: the error text is the quoted key for a missing [choices],
    [message] or [content], and the message of the list subscript for an
    empty list of choices. *)
Theorem missing_completion_key_is_named p r (top : gmap string json) :
  requests_post w p = PostReturned r ->
  ¬ (400 <= status_code r < 600) ->
  json_body r = Ok (JObj top) ->
  (top !! "choices" = None ->
   generate w p = Run [Post p] (Ok (Reply (ErrorJson "'choices'") 500)))
  ∧ (top !! "choices" = Some (JArr []) ->
     generate w p
     = Run [Post p] (Ok (Reply (ErrorJson "list index out of range") 500)))
  ∧ (∀ (choice : gmap string json) (others : list json),
       top !! "choices" = Some (JArr (JObj choice :: others)) ->
       (choice !! "message" = None ->
        generate w p = Run [Post p] (Ok (Reply (ErrorJson "'message'") 500)))
       ∧ (∀ msg : gmap string json,
            choice !! "message" = Some (JObj msg) ->
            msg !! "content" = None ->
            generate w p
            = Run [Post p] (Ok (Reply (ErrorJson "'content'") 500)))).
Proof.
  intros Hpost Hs Hv. rewrite generate_run, Hpost.
  unfold generated, read_response, raise_for_status.
  replace ((400 <=? status_code r) && (status_code r <? 600)) with false
    by (symmetry; apply andb_false_iff; lia).
  cbn. rewrite Hv. cbn. unfold dict_getitem.
  split; [|split].
  - intros ->. reflexivity.
  - intros ->. reflexivity.
  - intros choice others ->. cbn. rewrite list_getitem_head. cbn.
    unfold dict_getitem. split.
    + intros ->. reflexivity.
    + intros msg ->. cbn. unfold dict_getitem. intros ->. reflexivity.
Qed.

End HandlerBehaviour.

Lemma chat_reply_statuses_witness :
  ∃ text, Reply (ResponseJson "Hello.") 200 = Reply (ResponseJson text) 200
          ∧ strip text = text.
Proof.
  destruct (chat_reply_statuses near_world (Request (Some "alif") [] None)
              (Reply (ResponseJson "Hello.") 200))
    as [(H & _) | [(text & H & Hs & _) | (e & H & _)]].
  - vm_compute. reflexivity.
  - discriminate H.
  - exists text. split; assumption.
  - discriminate H.
Defined.

Lemma well_formed_completion_is_returned_witness :
  generate near_world (creative_payload "a pantun")
  = Run [Post (creative_payload "a pantun")]
      (Ok (Reply (ResponseJson (strip " Hello. ")) 200)).
Proof.
  apply (well_formed_completion_is_returned near_world
           (creative_payload "a pantun") (ok_response " Hello. ")
           (completion " Hello. ") " Hello. ").
  - reflexivity.
  - vm_compute. intros [H _]. now apply H.
  - reflexivity.
  - eapply shape_intro; reflexivity.
Defined.

Lemma chat_payload_structure_witness :
  model (grounded_payload alif_doc [Message "user" "hello"] "alif") = MODEL_NAME.
Proof.
  apply (chat_payload_structure near_world
           (Request (Some "alif") [Message "user" "hello"] None)
           (grounded_payload alif_doc [Message "user" "hello"] "alif")).
  vm_compute. apply list_elem_of_further, list_elem_of_here.
Defined.

Lemma missing_completion_key_is_named_witness :
  generate no_choices_world (fallback_payload [] "alif")
  = Run [Post (fallback_payload [] "alif")]
      (Ok (Reply (ErrorJson "'choices'") 500)).
Proof.
  apply (missing_completion_key_is_named no_choices_world
           (fallback_payload [] "alif")
           (Response 200 "OK" (Ok (JObj {[ "error" := JStr "busy" ]})))
           {[ "error" := JStr "busy" ]}).
  - reflexivity.
  - vm_compute. intros [H _]. now apply H.
  - reflexivity.
  - vm_compute. reflexivity.
Defined.

(** ** Normalisation and the threshold *)

Lemma lstrip_empty_all_space (s : string) :
  lstrip s = EmptyString -> all_space s = true.
Proof.
  induction s as [|c s IH]; cbn [lstrip all_space]; [reflexivity|].
  destruct (isspace c); [exact IH | discriminate].
Qed.

(** X22: the normalisation of search terms.  Stripping and lower-casing
    give the same text in either order, so the keys built at startup (strip,
    then lower) and the keys probed per query (lower, then strip) agree;
    normalising twice changes nothing more; and a term normalises to the
    empty string exactly when it holds nothing but whitespace. *)
Theorem search_term_normalization (s : string) :
  lower (strip s) = strip (lower s)
  ∧ strip (lower (strip (lower s))) = strip (lower s)
  ∧ (strip (lower s) = EmptyString ↔ all_space s = true).
Proof.
  split; [apply lower_strip|]. split.
  - now rewrite (lower_strip (lower s)), lower_idem, strip_idem.
  - rewrite <- lower_strip. split.
    + intros Hempty%lower_empty_inv. unfold strip in Hempty.
      destruct (lstrip_head s) as [Hs | (c & rest & Hs & Hc)].
      * now apply lstrip_empty_all_space.
      * rewrite Hs in Hempty.
        destruct (rstrip_keeps_head c rest Hc) as [rest' Hrest].
        rewrite Hrest in Hempty. discriminate.
    + intros Hall. unfold strip. now rewrite (lstrip_all_space s Hall).
Qed.

Lemma SFcompare_refl_not_nan (x : spec_float) :
  x ≠ S754_nan -> SFcompare x x = Some Eq.
Proof.
  destruct x as [[]|[]| |[] m e]; cbn [SFcompare]; try congruence;
    intros _; rewrite Z.compare_refl;
    fold (Pos.compare m m); now rewrite Pos.compare_refl.
Qed.

(** A distance that is not a number is within no threshold. *)
Lemma nan_not_within (x y : float) :
  is_nan x = true -> (x <=? y)%float = false.
Proof.
  unfold is_nan. rewrite FloatAxioms.eqb_spec, FloatAxioms.leb_spec.
  unfold SFeqb, SFleb.
  destruct (Prim2SF x) as [[]|[]| |[] m e] eqn:Hx;
    try (rewrite SFcompare_refl_not_nan by discriminate; discriminate).
  reflexivity.
Qed.

Section Threshold.

Variable w : world.

(** X23: when the dictionary probe misses, retrieval makes the three
    calls in order (probe with the normalised term, embedding of the term
    as received, search with that embedding) whatever the distance; the
    outcome is [NoMatch] exactly when the distance is not within the
    threshold, which includes a distance that is not a number. *)
Theorem miss_runs_semantic_search (search : string) :
  document_lookup (documents w) !! strip (lower search) = None ->
  let found := index_search w (retriever_encode w search) in
  trace (retrieve w search)
  = [Lookup (strip (lower search)); Encode search;
     Search (retriever_encode w search)]
  ∧ (returned (retrieve w search) = Ok NoMatch
     ↔ (fst found <=? RELEVANCE_THRESHOLD)%float = false)
  ∧ (is_nan (fst found) = true -> returned (retrieve w search) = Ok NoMatch).
Proof.
  intros Hmiss found. rewrite (retrieve_miss w search Hmiss).
  unfold semantic_run. cbn [trace returned]. fold found.
  split; [reflexivity|]. split.
  - destruct (fst found <=? RELEVANCE_THRESHOLD)%float; split; try easy.
    destruct (list_getitem _ _); discriminate.
  - intros Hnan. now rewrite (nan_not_within _ _ Hnan).
Qed.

End Threshold.

Lemma miss_runs_semantic_search_witness :
  trace (retrieve (world_of demo_documents nan (PostReturned (ok_response "Hi")))
           "script")
  = [Lookup "script"; Encode "script"; Search [0%float]]
  ∧ returned (retrieve (world_of demo_documents nan
                          (PostReturned (ok_response "Hi"))) "script")
    = Ok NoMatch.
Proof.
  destruct (miss_runs_semantic_search
              (world_of demo_documents nan (PostReturned (ok_response "Hi")))
              "script") as (Htrace & _ & Hnan).
  - vm_compute. reflexivity.
  - split; [exact Htrace|]. apply Hnan. reflexivity.
Defined.

(** X24: a request with an exact match does not depend on the embedding
    model or on the similarity index: two worlds with the same documents
    and the same generation endpoint give it the same run, calls and reply
    alike, whatever their encoders and their indexes answer. *)
Theorem exact_match_ignores_the_index (w1 w2 : world) (data : request)
    (user_query doc : string) :
  documents w1 = documents w2 ->
  (∀ p, requests_post w1 p = requests_post w2 p) ->
  query data = Some user_query -> user_query ≠ EmptyString ->
  document_lookup (documents w1)
    !! strip (lower (search_query (context data) user_query)) = Some doc ->
  chat w1 data = chat w2 data.
Proof.
  intros Hdocs Hpost Hq Hne Hhit.
  rewrite (chat_run w1 data user_query Hq Hne).
  rewrite (chat_run w2 data user_query Hq Hne). cbn zeta.
  rewrite (retrieve_hit w1 _ doc Hhit).
  rewrite Hdocs in Hhit. rewrite (retrieve_hit w2 _ doc Hhit).
  cbn [returned trace]. now rewrite Hpost.
Qed.

Lemma exact_match_ignores_the_index_witness :
  chat near_world (Request (Some "Alif") [] None)
  = chat far_world (Request (Some "Alif") [] None).
Proof.
  apply (exact_match_ignores_the_index near_world far_world
           (Request (Some "Alif") [] None) "Alif" alif_doc).
  - reflexivity.
  - reflexivity.
  - reflexivity.
  - discriminate.
  - vm_compute. reflexivity.
Defined.
